(** * Path probing and bound probing of the gccrs type checker

    A shallow embedding of
      - [TraitItemReference] and [TraitReference]  (rust-hir-trait-ref.h),
      - [TypeBoundsProbe::scan]                    (rust-tyty-bounds.cc),
      - [PathProbeCandidate] and [PathProbeType]   (rust-hir-path-probe.h),
    followed by the properties of the lookup, the bound scan and the probe.

    Conventions.  A C++ pointer to a node or to a type is modelled by the
    object it points to, a nullable pointer by an [option].  A failed
    [rust_assert], a reached [gcc_unreachable] and a null dereference stop the
    compiler; they are the [Abort] outcomes of the [result] monad. *)

From Stdlib Require Import String ZArith List Bool.
From stdpp Require Import base option list gmap strings.

(** ** Fatal outcomes *)

Inductive Fatal : Type :=
| AssertFailed   (* rust_assert (false) *)
| Unreachable    (* gcc_unreachable () *)
| NullDeref.     (* dereference of a null pointer *)

Inductive result (A : Type) : Type :=
| Ok (a : A)
| Abort (f : Fatal).
Arguments Ok {A} a.
Arguments Abort {A} f.

#[global] Instance result_ret : MRet result := fun A a => Ok a.
#[global] Instance result_bind : MBind result := fun A B k m =>
  match m with
  | Ok a => k a
  | Abort f => Abort f
  end.

Definition rust_assert (b : bool) : result unit :=
  if b then Ok tt else Abort AssertFailed.

Definition gcc_unreachable {A : Type} : result A := Abort Unreachable.

(** [p != nullptr] for a nullable pointer [p]. *)
Definition not_null {A : Type} (p : option A) : bool :=
  match p with
  | Some _ => true
  | None => false
  end.

(** Dereference of a nullable pointer [p]. *)
Definition deref {A : Type} (p : option A) : result A :=
  match p with
  | Some a => Ok a
  | None => Abort NullDeref
  end.

(** [a.compare (b)] of std::string: negative, zero or positive. *)
Definition compare (a b : string) : Z :=
  match String.compare a b with
  | Lt => (-1)%Z
  | Eq => 0%Z
  | Gt => 1%Z
  end.

(** ** HIR nodes: the fields the probing code reads *)

Definition HirId := N.
Definition Identifier := string.
Definition Location := N.

Module HIR.

Record NodeMapping : Type := { get_hirid : HirId }.

(** HIR::Type, the node of a written type. *)
Record Type_ : Type := { type_mappings : NodeMapping }.

(** HIR::TypePath, here the trait path of an implementation block. *)
Record TypePath : Type := { path_mappings : NodeMapping }.

(** The declaration shared by HIR::Function, HIR::ConstantItem and
    HIR::TypeAlias: a name, the node mapping and the source location. *)
Record ItemDecl : Type := {
  item_name : Identifier;
  item_mappings : NodeMapping;
  item_locus : Location;
}.

Definition get_function_name (d : ItemDecl) : Identifier := item_name d.
Definition get_identifier (d : ItemDecl) : Identifier := item_name d.
Definition get_new_type_name (d : ItemDecl) : Identifier := item_name d.

(** HIR::ImplItem with its three concrete classes. *)
Inductive ImplItem : Type :=
| TypeAlias (alias : ItemDecl)
| ConstantItem (constant : ItemDecl)
| Function (function : ItemDecl).

(** HIR::ImplBlock: [trait_ref] is null for an inherent block. *)
Record ImplBlock : Type := {
  impl_mappings : NodeMapping;
  get_type : Type_;
  get_trait_ref : option TypePath;
}.

Definition has_trait_ref (impl : ImplBlock) : bool :=
  not_null (get_trait_ref impl).

(** HIR::PathIdentSegment. *)
Record PathIdentSegment : Type := { as_string : string }.

(** HIR::Trait. *)
Record Trait : Type := {
  trait_name : Identifier;
  trait_mappings : NodeMapping;
  trait_locus : Location;
}.

(** HIR::TraitItem (TraitItemFunc, TraitItemConst, TraitItemType). *)
Record TraitItem : Type := { trait_item_mappings : NodeMapping }.

End HIR.

(** ** TyTy: the interface of rust-tyty.h used here *)

Class TyTy : Type := {
  BaseType : Type;
  (** [new TyTy::ErrorType (ref)] *)
  ErrorType : HirId -> BaseType;
  (** [a->can_eq (b, emit_errors)] *)
  can_eq : BaseType -> BaseType -> bool -> bool;
  SubstitutionParamMapping : Type;
}.

(** ** TraitItemReference *)

Module TraitItemReference.

Inductive TraitItemType : Type := FN | CONST | TYPE | ERROR.

Definition TraitItemType_eqb (a b : TraitItemType) : bool :=
  match a, b with
  | FN, FN | CONST, CONST | TYPE, TYPE | ERROR, ERROR => true
  | _, _ => false
  end.

Section WithTyTy.
Context `{TyTy}.

(** The member [context], a pointer to the one TypeCheckContext, is the
    [context] of the probes below and is not repeated in each item. *)
Record t : Type := {
  identifier : string;
  optional_flag : bool;
  type : TraitItemType;
  hir_trait_item : option HIR.TraitItem;
  inherited_substitutions : list SubstitutionParamMapping;
  locus : Location;
  self : option BaseType;
}.

Definition error : t :=
  {| identifier := EmptyString; optional_flag := false; type := ERROR;
     hir_trait_item := None; inherited_substitutions := [];
     locus := 0%N; self := None |}.

(** The function-local static: one shared sentinel. *)
Definition error_node : t := error.

Definition is_error (r : t) : bool := TraitItemType_eqb (type r) ERROR.

Definition is_optional (r : t) : bool := optional_flag r.

Definition get_identifier (r : t) : string := identifier r.

Definition get_trait_item_type (r : t) : TraitItemType := type r.

Definition get_hir_trait_item (r : t) : option HIR.TraitItem :=
  hir_trait_item r.

Definition get_locus (r : t) : Location := locus r.

Definition get_mappings (r : t) : result HIR.NodeMapping :=
  item ← deref (hir_trait_item r);
  mret (HIR.trait_item_mappings item).

Definition get_error (r : t) : result BaseType :=
  m ← get_mappings r;
  mret (ErrorType (HIR.get_hirid m)).

(** [operator= (other)] on an object that is not [other] itself: the
    members are copied, and the loop pushes every substitution of [other]
    onto [inherited_substitutions], which is not cleared first. *)
Definition assign (this other : t) : t :=
  {| identifier := identifier other;
     optional_flag := optional_flag other;
     type := type other;
     hir_trait_item := hir_trait_item other;
     inherited_substitutions :=
       fold_left (fun substitutions s => substitutions ++ [s])
         (inherited_substitutions other) (inherited_substitutions this);
     locus := locus other;
     self := self other |}.

Definition trait_item_type_as_string (ty : TraitItemType) : string :=
  match ty with
  | FN => "FN"
  | CONST => "CONST"
  | TYPE => "TYPE"
  | ERROR => "ERROR"
  end.

Definition as_string (r : t) : string :=
  (((("(" +:+ trait_item_type_as_string (type r)) +:+ " ")
      +:+ identifier r) +:+ " ") +:+ ")".

End WithTyTy.

Arguments t {_}.

(** The three kind-specific builders are declared in the header and defined
    elsewhere; they are taken as an interface. *)
Class Builders `{TyTy} : Type := {
  get_type_from_typealias : t -> HIR.TraitItem -> BaseType;
  get_type_from_constant : t -> HIR.TraitItem -> BaseType;
  get_type_from_fn : t -> HIR.TraitItem -> BaseType;
}.

Section GetTyTy.
Context `{Builders}.

Definition get_tyty (r : t) : result BaseType :=
  _ ← rust_assert (not_null (hir_trait_item r));
  match type r with
  | CONST =>
      item ← deref (hir_trait_item r);
      mret (get_type_from_constant r item)
  | TYPE =>
      item ← deref (hir_trait_item r);
      mret (get_type_from_typealias r item)
  | FN =>
      item ← deref (hir_trait_item r);
      mret (get_type_from_fn r item)
  | _ => get_error r
  end.

End GetTyTy.

End TraitItemReference.

(** ** TraitReference *)

Module TraitReference.

Section WithTyTy.
Context `{TyTy}.

Record t : Type := {
  hir_trait_ref : option HIR.Trait;
  item_refs : list TraitItemReference.t;
}.

Definition error : t := {| hir_trait_ref := None; item_refs := [] |}.

Definition is_error (r : t) : bool := negb (not_null (hir_trait_ref r)).

Definition get_locus (r : t) : result Location :=
  trait ← deref (hir_trait_ref r);
  mret (HIR.trait_locus trait).

Definition get_name (r : t) : result string :=
  _ ← rust_assert (negb (is_error r));
  trait ← deref (hir_trait_ref r);
  mret (HIR.trait_name trait).

(** The loop of [lookup_trait_item (ident)] over the items that remain. *)
Fixpoint lookup_trait_item_from (items : list TraitItemReference.t)
    (ident : string) : TraitItemReference.t :=
  match items with
  | [] => TraitItemReference.error_node
  | item :: rest =>
      if (compare ident (TraitItemReference.get_identifier item) =? 0)%Z
      then item
      else lookup_trait_item_from rest ident
  end.

Definition lookup_trait_item (r : t) (ident : string)
    : TraitItemReference.t :=
  lookup_trait_item_from (item_refs r) ident.

(** The overload that also filters by kind. *)
Fixpoint lookup_trait_item_of_type_from (items : list TraitItemReference.t)
    (ident : string) (type : TraitItemReference.TraitItemType)
    : TraitItemReference.t :=
  match items with
  | [] => TraitItemReference.error_node
  | item :: rest =>
      if negb (TraitItemReference.TraitItemType_eqb
                 (TraitItemReference.get_trait_item_type item) type)
      then lookup_trait_item_of_type_from rest ident type
      else if (compare ident (TraitItemReference.get_identifier item) =? 0)%Z
      then item
      else lookup_trait_item_of_type_from rest ident type
  end.

Definition lookup_trait_item_of_type (r : t) (ident : string)
    (type : TraitItemReference.TraitItemType) : TraitItemReference.t :=
  lookup_trait_item_of_type_from (item_refs r) ident type.

Definition size (r : t) : nat := length (item_refs r).

Definition get_trait_items (r : t) : list TraitItemReference.t :=
  item_refs r.

End WithTyTy.

Arguments t {_}.

(** Analysis::NodeMapping::as_string, which is not part of the sources. *)
Class NodeMappingPrinter : Type := {
  mappings_as_string : HIR.NodeMapping -> string;
}.

Section Printing.
Context `{TyTy} `{!NodeMappingPrinter}.

(** The loop of [as_string] that fills [item_buf]. *)
Definition items_as_string (items : list TraitItemReference.t) : string :=
  fold_left
    (fun item_buf item =>
       item_buf +:+ (TraitItemReference.as_string item +:+ ", "))
    items EmptyString.

Definition as_string (r : t) : result string :=
  if is_error r then Ok "<trait-ref-error-node>"
  else
    let item_buf := items_as_string (item_refs r) in
    name ← get_name r;
    trait ← deref (hir_trait_ref r);
    mret (((((("HIR Trait: " +:+ name) +:+ "->")
              +:+ mappings_as_string (HIR.trait_mappings trait)) +:+ " [")
             +:+ item_buf) +:+ "]").

End Printing.

End TraitReference.

(** ** The collaborators of the probes *)

(** TraitResolver::Resolve (rust-hir-trait-resolve.h), a memoized map from a
    trait path to its TraitReference; it may answer the error reference. *)
Class TraitResolver `{TyTy} : Type := {
  Resolve : HIR.TypePath -> TraitReference.t;
}.

Section Registry.
Context `{TyTy}.

(** Analysis::Mappings, restricted to the two enumerations the probes use.
    Each list is in the order in which the registry enumerates. *)
Record Mappings : Type := {
  hirImplItemMappings : list (HirId * HIR.ImplItem * HIR.ImplBlock);
  hirImplBlockMappings : list (HirId * HIR.ImplBlock);
}.

(** Resolver::TypeCheckContext, restricted to the type cache. *)
Record TypeCheckContext : Type := {
  resolved : gmap HirId BaseType;
}.

(** [context->lookup_type (id, &ty)]: [Some ty] when it answers true. *)
Definition lookup_type (context : TypeCheckContext) (id : HirId)
    : option BaseType :=
  resolved context !! id.

(** The two members every TypeCheckBase visitor holds. *)
Record TypeCheckBase : Type := {
  mappings : Mappings;
  context : TypeCheckContext;
}.

(** Modelled from the spec: Mappings::iterate_impl_blocks, whose definition
    is not part of the sources.  It calls the visitor on every block in
    registry order and stops early when the visitor answers false. *)
Fixpoint iterate_blocks {S : Type}
    (blocks : list (HirId * HIR.ImplBlock))
    (cb : HirId -> HIR.ImplBlock -> S -> S * bool) (s : S) : S :=
  match blocks with
  | [] => s
  | (id, impl) :: rest =>
      let '(s', continue) := cb id impl s in
      if continue then iterate_blocks rest cb s' else s'
  end.

(** [mappings->iterate_impl_blocks (cb)] *)
Definition iterate_impl_blocks {S : Type} (m : Mappings)
    (cb : HirId -> HIR.ImplBlock -> S -> S * bool) (s : S) : S :=
  iterate_blocks (hirImplBlockMappings m) cb s.

(** Modelled from the spec: Mappings::iterate_impl_items, whose definition
    is not part of the sources.  It calls the visitor on every
    (item, owning block) pair in registry order and stops early when the
    visitor answers false; a visitor that aborts ends the enumeration. *)
Fixpoint iterate_items {S : Type}
    (items : list (HirId * HIR.ImplItem * HIR.ImplBlock))
    (cb : HirId -> HIR.ImplItem -> HIR.ImplBlock -> S -> result (S * bool))
    (s : S) : result S :=
  match items with
  | [] => Ok s
  | (id, item, impl) :: rest =>
      match cb id item impl s with
      | Abort f => Abort f
      | Ok (s', continue) =>
          if continue then iterate_items rest cb s' else Ok s'
      end
  end.

(** [mappings->iterate_impl_items (cb)] *)
Definition iterate_impl_items {S : Type} (m : Mappings)
    (cb : HirId -> HIR.ImplItem -> HIR.ImplBlock -> S -> result (S * bool))
    (s : S) : result S :=
  iterate_items (hirImplItemMappings m) cb s.

End Registry.

(** ** TypeBoundsProbe *)

Module TypeBoundsProbe.

Section WithResolver.
Context `{TraitResolver}.

Record t : Type := {
  base : TypeCheckBase;
  receiver : BaseType;
  trait_references : list TraitReference.t;
}.

(** The visitor handed to [iterate_impl_blocks] by [scan]; its state is
    the captured vector [possible_trait_paths]. *)
Definition scan_block (p : t) (id : HirId) (impl : HIR.ImplBlock)
    (possible_trait_paths : list HIR.TypePath)
    : list HIR.TypePath * bool :=
  match HIR.get_trait_ref impl with
  | None => (possible_trait_paths, true)
  | Some trait_path =>
      match lookup_type (context (base p))
              (HIR.get_hirid (HIR.type_mappings (HIR.get_type impl))) with
      | None => (possible_trait_paths, true)
      | Some impl_type =>
          if negb (can_eq (receiver p) impl_type false)
          then (possible_trait_paths, true)
          else (possible_trait_paths ++ [trait_path], true)
      end
  end.

(** The paths a block adds to [possible_trait_paths]. *)
Definition block_paths (p : t) (impl : HIR.ImplBlock)
    : list HIR.TypePath :=
  fst (scan_block p 0%N impl []).

(** The second loop of [scan]. *)
Fixpoint resolve_paths (possible_trait_paths : list HIR.TypePath)
    (trait_references : list TraitReference.t) : list TraitReference.t :=
  match possible_trait_paths with
  | [] => trait_references
  | trait_path :: rest =>
      let trait_ref := Resolve trait_path in
      if negb (TraitReference.is_error trait_ref)
      then resolve_paths rest (trait_references ++ [trait_ref])
      else resolve_paths rest trait_references
  end.

Definition scan (p : t) : t :=
  let possible_trait_paths :=
    iterate_impl_blocks (mappings (base p)) (scan_block p) [] in
  {| base := base p; receiver := receiver p;
     trait_references :=
       resolve_paths possible_trait_paths (trait_references p) |}.

(** Modelled from the spec: TypeBoundsProbe::Probe of
    rust-hir-type-bounds.h, which is not part of the sources: a probe on
    the receiver with no trait reference yet is scanned and its
    references are returned. *)
Definition Probe (tc : TypeCheckBase) (receiver : BaseType)
    : list TraitReference.t :=
  trait_references
    (scan {| base := tc; receiver := receiver; trait_references := [] |}).

End WithResolver.

End TypeBoundsProbe.

(** ** PathProbeCandidate *)

Module PathProbeCandidate.

Inductive CandidateType : Type :=
| IMPL_CONST
| IMPL_TYPE_ALIAS
| IMPL_FUNC
| TRAIT_ITEM_CONST
| TRAIT_TYPE_ALIAS
| TRAIT_FUNC.

Section WithTyTy.
Context `{TyTy}.

Record ImplItemCandidate : Type := {
  impl_item : HIR.ImplItem;
  parent : option HIR.ImplBlock;
}.

Record TraitItemCandidate : Type := {
  trait_ref : TraitReference.t;
  item_ref : TraitItemReference.t;
}.

(** The union [Candidate], with the member that was constructed. *)
Inductive Candidate : Type :=
| impl (c : ImplItemCandidate)
| trait (c : TraitItemCandidate).

Record t : Type := {
  type : CandidateType;
  ty : BaseType;
  item : Candidate;
}.

Definition is_impl_candidate (c : t) : bool :=
  match type c with
  | IMPL_CONST | IMPL_TYPE_ALIAS | IMPL_FUNC => true
  | _ => false
  end.

Definition is_trait_candidate (c : t) : bool :=
  match type c with
  | TRAIT_ITEM_CONST | TRAIT_TYPE_ALIAS | TRAIT_FUNC => true
  | _ => false
  end.

End WithTyTy.

Arguments t {_}.
Arguments Candidate {_}.
Arguments TraitItemCandidate {_}.

End PathProbeCandidate.

(** ** PathProbeType *)

Module PathProbeType.

Import PathProbeCandidate.

Section WithCollaborators.
Context `{TyTy} `{!TraitResolver} `{!TraitItemReference.Builders}.

Record t : Type := {
  base : TypeCheckBase;
  receiver : BaseType;
  search : HIR.PathIdentSegment;
  candidates : list PathProbeCandidate.t;
  current_impl : option HIR.ImplBlock;
}.

(** [candidates.push_back (std::move (candidate))] *)
Definition push_back (p : t) (candidate : PathProbeCandidate.t) : t :=
  {| base := base p; receiver := receiver p; search := search p;
     candidates := candidates p ++ [candidate];
     current_impl := current_impl p |}.

Definition set_current_impl (p : t) (impl : option HIR.ImplBlock) : t :=
  {| base := base p; receiver := receiver p; search := search p;
     candidates := candidates p; current_impl := impl |}.

Definition visit_TypeAlias (alias : HIR.ItemDecl) (p : t) : result t :=
  let name := HIR.get_new_type_name alias in
  if (compare (HIR.as_string (search p)) name =? 0)%Z then
    let tyid := HIR.get_hirid (HIR.item_mappings alias) in
    match lookup_type (context (base p)) tyid with
    | None => Abort AssertFailed (* rust_assert (ok) *)
    | Some ty =>
        let impl_item_candidate :=
          {| impl_item := HIR.TypeAlias alias;
             parent := current_impl p |} in
        let candidate :=
          {| type := IMPL_TYPE_ALIAS; ty := ty;
             item := impl impl_item_candidate |} in
        Ok (push_back p candidate)
    end
  else Ok p.

Definition visit_ConstantItem (constant : HIR.ItemDecl) (p : t)
    : result t :=
  let name := HIR.get_identifier constant in
  if (compare (HIR.as_string (search p)) name =? 0)%Z then
    let tyid := HIR.get_hirid (HIR.item_mappings constant) in
    match lookup_type (context (base p)) tyid with
    | None => Abort AssertFailed (* rust_assert (ok) *)
    | Some ty =>
        let impl_item_candidate :=
          {| impl_item := HIR.ConstantItem constant;
             parent := current_impl p |} in
        let candidate :=
          {| type := IMPL_CONST; ty := ty;
             item := impl impl_item_candidate |} in
        Ok (push_back p candidate)
    end
  else Ok p.

Definition visit_Function (function : HIR.ItemDecl) (p : t) : result t :=
  let name := HIR.get_function_name function in
  if (compare (HIR.as_string (search p)) name =? 0)%Z then
    let tyid := HIR.get_hirid (HIR.item_mappings function) in
    match lookup_type (context (base p)) tyid with
    | None => Abort AssertFailed (* rust_assert (ok) *)
    | Some ty =>
        let impl_item_candidate :=
          {| impl_item := HIR.Function function;
             parent := current_impl p |} in
        let candidate :=
          {| type := IMPL_FUNC; ty := ty;
             item := impl impl_item_candidate |} in
        Ok (push_back p candidate)
    end
  else Ok p.

(** [item->accept_vis] on this probe: the overload of the item's class. *)
Definition accept_vis (item : HIR.ImplItem) (p : t) : result t :=
  match item with
  | HIR.TypeAlias alias => visit_TypeAlias alias p
  | HIR.ConstantItem constant => visit_ConstantItem constant p
  | HIR.Function function => visit_Function function p
  end.

Definition process_impl_item_candidate (id : HirId) (item : HIR.ImplItem)
    (impl : HIR.ImplBlock) (p : t) : result t :=
  let p := set_current_impl p (Some impl) in
  let impl_ty_id :=
    HIR.get_hirid (HIR.type_mappings (HIR.get_type impl)) in
  match lookup_type (context (base p)) impl_ty_id with
  | None => Abort AssertFailed (* rust_assert (ok) *)
  | Some impl_block_ty =>
      if negb (can_eq (receiver p) impl_block_ty false)
      then Ok p
      else accept_vis item p
  end.

(** The lambda handed to [iterate_impl_items]. *)
Definition impl_item_visitor (id : HirId) (item : HIR.ImplItem)
    (impl : HIR.ImplBlock) (p : t) : result (t * bool) :=
  p ← process_impl_item_candidate id item impl p;
  mret (p, true).

Definition process_impl_items_for_candidates (p : t) : result t :=
  iterate_impl_items (mappings (base p)) impl_item_visitor p.

(** The kind dispatch of the trait pass. *)
Definition candidate_type_of_trait_item
    (kind : TraitItemReference.TraitItemType) : result CandidateType :=
  match kind with
  | TraitItemReference.FN => Ok TRAIT_FUNC
  | TraitItemReference.CONST => Ok TRAIT_ITEM_CONST
  | TraitItemReference.TYPE => Ok TRAIT_TYPE_ALIAS
  | TraitItemReference.ERROR => gcc_unreachable
  end.

(** One turn of the loop of [process_traits_for_candidates]. *)
Definition process_trait_for_candidates (trait_ref : TraitReference.t)
    (p : t) : result t :=
  let trait_item_ref :=
    TraitReference.lookup_trait_item trait_ref
      (HIR.as_string (search p)) in
  if TraitItemReference.is_error trait_item_ref then Ok p
  else if negb (TraitItemReference.is_optional trait_item_ref) then Ok p
  else
    candidate_type ←
      candidate_type_of_trait_item
        (TraitItemReference.get_trait_item_type trait_item_ref);
    let trait_item_candidate :=
      {| trait_ref := trait_ref; item_ref := trait_item_ref |} in
    ty ← TraitItemReference.get_tyty trait_item_ref;
    let candidate :=
      {| type := candidate_type; ty := ty;
         item := trait trait_item_candidate |} in
    mret (push_back p candidate).

Fixpoint process_traits_for_candidates (traits : list TraitReference.t)
    (p : t) : result t :=
  match traits with
  | [] => Ok p
  | trait_ref :: rest =>
      p ← process_trait_for_candidates trait_ref p;
      process_traits_for_candidates rest p
  end.

Definition Probe (tc : TypeCheckBase) (receiver : BaseType)
    (segment_name : HIR.PathIdentSegment)
    : result (list PathProbeCandidate.t) :=
  let probe :=
    {| base := tc; receiver := receiver; search := segment_name;
       candidates := []; current_impl := None |} in
  probe ← process_impl_items_for_candidates probe;
  probe ← process_traits_for_candidates
            (TypeBoundsProbe.Probe tc receiver) probe;
  mret (candidates probe).

End WithCollaborators.

End PathProbeType.

(** ** ReportMultipleCandidateError *)

Module ReportMultipleCandidateError.

Import PathProbeCandidate.

(** Modelled from the spec: RichLocation, whose class is not part of the
    sources: the location a diagnostic is anchored at and the ranges added
    to it, in the order of the calls of [add_range]. *)
Record RichLocation : Type := {
  anchor : Location;
  ranges : list Location;
}.

Definition add_range (r : RichLocation) (locus : Location) : RichLocation :=
  {| anchor := anchor r; ranges := ranges r ++ [locus] |}.

(** What [rust_error_at (r, fmt, ...)] emits. *)
Record Diagnostic : Type := {
  where_ : RichLocation;
  message : string;
}.

Definition visit_TypeAlias (alias : HIR.ItemDecl) (r : RichLocation)
    : RichLocation :=
  add_range r (HIR.item_locus alias).

Definition visit_ConstantItem (constant : HIR.ItemDecl) (r : RichLocation)
    : RichLocation :=
  add_range r (HIR.item_locus constant).

Definition visit_Function (function : HIR.ItemDecl) (r : RichLocation)
    : RichLocation :=
  add_range r (HIR.item_locus function).

Definition accept_vis (item : HIR.ImplItem) (r : RichLocation)
    : RichLocation :=
  match item with
  | HIR.TypeAlias alias => visit_TypeAlias alias r
  | HIR.ConstantItem constant => visit_ConstantItem constant r
  | HIR.Function function => visit_Function function r
  end.

Section WithTyTy.
Context `{TyTy}.

(** [c.item.impl] and [c.item.trait]: reading the member of the union that
    was not constructed has no defined result. *)
Definition read_impl (u : Candidate) : option ImplItemCandidate :=
  match u with
  | impl c => Some c
  | trait _ => None
  end.

Definition read_trait (u : Candidate) : option TraitItemCandidate :=
  match u with
  | impl _ => None
  | trait c => Some c
  end.

(** One turn of the loop of [Report]. *)
Definition report_candidate (c : PathProbeCandidate.t) (r : RichLocation)
    : option RichLocation :=
  match type c with
  | IMPL_CONST | IMPL_TYPE_ALIAS | IMPL_FUNC =>
      i ← read_impl (item c);
      Some (accept_vis (impl_item i) r)
  | TRAIT_ITEM_CONST | TRAIT_TYPE_ALIAS | TRAIT_FUNC =>
      t ← read_trait (item c);
      Some (add_range r (TraitItemReference.get_locus (item_ref t)))
  end.

Fixpoint report_candidates (candidates : list PathProbeCandidate.t)
    (r : RichLocation) : option RichLocation :=
  match candidates with
  | [] => Some r
  | c :: rest =>
      r ← report_candidate c r;
      report_candidates rest r
  end.

(** [Report] answers the diagnostic it emits, or [None] when it reads a
    member of a union that was not constructed. *)
Definition Report (candidates : list PathProbeCandidate.t)
    (query : HIR.PathIdentSegment) (query_locus : Location)
    : option Diagnostic :=
  r ← report_candidates candidates {| anchor := query_locus; ranges := [] |};
  Some {| where_ := r;
          message :=
            "multiple applicable items in scope for: "
              +:+ HIR.as_string query |}.

End WithTyTy.

End ReportMultipleCandidateError.

(** ** What the specification expects of the two passes

    The list below is written from the specification of the probe, for
    comparison with [PathProbeType.Probe]. *)

Section InherentExpectation.
Context `{TyTy}.

Import PathProbeCandidate.

Definition item_decl (item : HIR.ImplItem) : HIR.ItemDecl :=
  match item with
  | HIR.TypeAlias d | HIR.ConstantItem d | HIR.Function d => d
  end.

Definition impl_candidate_type (item : HIR.ImplItem) : CandidateType :=
  match item with
  | HIR.TypeAlias _ => IMPL_TYPE_ALIAS
  | HIR.ConstantItem _ => IMPL_CONST
  | HIR.Function _ => IMPL_FUNC
  end.

Definition self_type_id (impl : HIR.ImplBlock) : HirId :=
  HIR.get_hirid (HIR.type_mappings (HIR.get_type impl)).

(** The owning block's self type is resolved and the receiver is
    compatible with it, non-strictly. *)
Definition compatible_block (tc : TypeCheckBase) (receiver : BaseType)
    (impl : HIR.ImplBlock) : bool :=
  match lookup_type (context tc) (self_type_id impl) with
  | Some self_ty => can_eq receiver self_ty false
  | None => false
  end.

Definition named (name : HIR.PathIdentSegment) (item : HIR.ImplItem)
    : bool :=
  String.eqb (HIR.as_string name) (HIR.item_name (item_decl item)).

(** The inherent candidate of a registry entry, carrying the type the
    cache holds for the item. *)
Definition inherent_candidate (tc : TypeCheckBase)
    (entry : HirId * HIR.ImplItem * HIR.ImplBlock)
    : list PathProbeCandidate.t :=
  let '(_, item, owner) := entry in
  match lookup_type (context tc)
          (HIR.get_hirid (HIR.item_mappings (item_decl item))) with
  | Some ty =>
      [ {| type := impl_candidate_type item; ty := ty;
           item := impl {| impl_item := item; parent := Some owner |} |} ]
  | None => []
  end.

(** What one registry entry contributes: its candidate when the owning
    block is compatible with the receiver and the item has the name. *)
Definition inherent_entry_candidates (tc : TypeCheckBase)
    (receiver : BaseType) (name : HIR.PathIdentSegment)
    (entry : HirId * HIR.ImplItem * HIR.ImplBlock)
    : list PathProbeCandidate.t :=
  let '(_, item, owner) := entry in
  if compatible_block tc receiver owner && named name item
  then inherent_candidate tc entry
  else [].

Definition inherent_candidates (tc : TypeCheckBase) (receiver : BaseType)
    (name : HIR.PathIdentSegment) : list PathProbeCandidate.t :=
  flat_map (inherent_entry_candidates tc receiver name)
    (hirImplItemMappings (mappings tc)).

(** The cache holds what the inherent pass asserts about an entry: the
    self type of the owning block, and the type of the item when the block
    is compatible and the item has the name. *)
Definition entry_ready (tc : TypeCheckBase) (receiver : BaseType)
    (name : HIR.PathIdentSegment)
    (entry : HirId * HIR.ImplItem * HIR.ImplBlock) : Prop :=
  let '(_, item, owner) := entry in
  is_Some (lookup_type (context tc) (self_type_id owner))
  /\ (compatible_block tc receiver owner && named name item = true ->
      is_Some (lookup_type (context tc)
                 (HIR.get_hirid (HIR.item_mappings (item_decl item))))).

(** A trait-default candidate for [name]: its discriminant is one of the
    trait variants and its payload is one of [traits] together with the
    item that trait answers for [name], which is optional and is not an
    error item. *)
Definition trait_default_candidate (traits : list TraitReference.t)
    (name : HIR.PathIdentSegment) (c : PathProbeCandidate.t) : Prop :=
  is_trait_candidate c = true
  /\ exists tr,
      tr ∈ traits
      /\ item c =
         trait {| trait_ref := tr;
                  item_ref :=
                    TraitReference.lookup_trait_item tr
                      (HIR.as_string name) |}
      /\ TraitItemReference.is_optional
           (TraitReference.lookup_trait_item tr (HIR.as_string name))
         = true
      /\ TraitItemReference.is_error
           (TraitReference.lookup_trait_item tr (HIR.as_string name))
         = false.

(** The trait pass can compute the type of the item a trait answers for
    [name]: an optional item that is not an error item has its
    declaration. *)
Definition trait_ready (name : HIR.PathIdentSegment)
    (tr : TraitReference.t) : Prop :=
  let found := TraitReference.lookup_trait_item tr (HIR.as_string name) in
  TraitItemReference.is_error found = false ->
  TraitItemReference.is_optional found = true ->
  is_Some (TraitItemReference.hir_trait_item found).

(** The registry without the entries whose owning block has no self type
    in the cache. *)
Definition skip_unresolved (tc : TypeCheckBase) : TypeCheckBase :=
  {| mappings :=
       {| hirImplItemMappings :=
            List.filter
              (fun entry =>
                 not_null (lookup_type (context tc)
                             (self_type_id (snd entry))))
              (hirImplItemMappings (mappings tc));
          hirImplBlockMappings := hirImplBlockMappings (mappings tc) |};
     context := context tc |}.

End InherentExpectation.

Section ProbeFrame.
Context `{TyTy}.

(** The fields of a probe that no pass changes. *)
Definition same_probe (p p' : PathProbeType.t) : Prop :=
  PathProbeType.base p' = PathProbeType.base p
  /\ PathProbeType.receiver p' = PathProbeType.receiver p
  /\ PathProbeType.search p' = PathProbeType.search p.

End ProbeFrame.

(** ** What the two passes and the report produce, written out *)

Section ProbeExpectation.
Context `{TyTy} `{!TraitResolver} `{!TraitItemReference.Builders}.

Import PathProbeCandidate.

(** [item] is what the lookup by name and kind looks for. *)
Definition wanted (name : string)
    (kind : TraitItemReference.TraitItemType)
    (item : TraitItemReference.t) : Prop :=
  TraitItemReference.get_trait_item_type item = kind
  /\ TraitItemReference.get_identifier item = name.

(** The candidate a satisfied trait contributes for [name]: the one of the
    item it answers, when that item is optional, is not an error item and
    has a type. *)
Definition trait_entry_candidates (name : HIR.PathIdentSegment)
    (tr : TraitReference.t) : list PathProbeCandidate.t :=
  let found := TraitReference.lookup_trait_item tr (HIR.as_string name) in
  if TraitItemReference.is_error found then []
  else if negb (TraitItemReference.is_optional found) then []
  else
    match PathProbeType.candidate_type_of_trait_item
            (TraitItemReference.get_trait_item_type found),
          TraitItemReference.get_tyty found with
    | Ok ct, Ok found_ty =>
        [ {| type := ct; ty := found_ty;
             item := trait {| trait_ref := tr; item_ref := found |} |} ]
    | _, _ => []
    end.

Definition trait_default_candidates (tc : TypeCheckBase)
    (receiver : BaseType) (name : HIR.PathIdentSegment)
    : list PathProbeCandidate.t :=
  flat_map (trait_entry_candidates name) (TypeBoundsProbe.Probe tc receiver).

(** The trait discriminant that names a kind of trait item: TRAIT_FUNC
    for a function, TRAIT_ITEM_CONST for a constant, TRAIT_TYPE_ALIAS for a
    type; no discriminant names the kind ERROR. *)
Definition tag_names_kind (tag : CandidateType)
    (kind : TraitItemReference.TraitItemType) : bool :=
  match tag, kind with
  | TRAIT_FUNC, TraitItemReference.FN => true
  | TRAIT_ITEM_CONST, TraitItemReference.CONST => true
  | TRAIT_TYPE_ALIAS, TraitItemReference.TYPE => true
  | _, _ => false
  end.

(** The discriminant of a candidate agrees with the member of the union it
    carries: the class of the item for an inherent candidate, the kind of
    the trait item for a trait candidate. *)
Definition well_tagged (c : PathProbeCandidate.t) : Prop :=
  match item c with
  | impl i => type c = impl_candidate_type (impl_item i)
  | trait t =>
      tag_names_kind (type c)
        (TraitItemReference.get_trait_item_type (item_ref t)) = true
  end.

(** The discriminant of a candidate selects the member of the union that
    was constructed. *)
Definition reads_constructed_member (c : PathProbeCandidate.t) : bool :=
  match item c with
  | impl _ => is_impl_candidate c
  | trait _ => is_trait_candidate c
  end.

(** The type a candidate carries is the type of what it refers to: the
    cached type of the item for an inherent candidate, the type
    [get_tyty] computes for the trait item of a trait candidate. *)
Definition carries_its_type (tc : TypeCheckBase)
    (c : PathProbeCandidate.t) : Prop :=
  match item c with
  | impl i =>
      lookup_type (context tc)
        (HIR.get_hirid (HIR.item_mappings (item_decl (impl_item i))))
      = Some (ty c)
  | trait t => TraitItemReference.get_tyty (item_ref t) = Ok (ty c)
  end.

(** What every candidate of a returned sequence satisfies. *)
Definition sound_candidate (tc : TypeCheckBase)
    (c : PathProbeCandidate.t) : Prop :=
  well_tagged c /\ reads_constructed_member c = true
  /\ carries_its_type tc c.

(** Where the declaration behind a candidate is. *)
Definition definition_locus (c : PathProbeCandidate.t) : Location :=
  match item c with
  | impl i => HIR.item_locus (item_decl (impl_item i))
  | trait t => TraitItemReference.get_locus (item_ref t)
  end.

(** The same context with another enumeration of the blocks. *)
Definition with_blocks (tc : TypeCheckBase)
    (blocks : list (HirId * HIR.ImplBlock)) : TypeCheckBase :=
  {| mappings :=
       {| hirImplItemMappings := hirImplItemMappings (mappings tc);
          hirImplBlockMappings := blocks |};
     context := context tc |}.

End ProbeExpectation.

(** ** What two calls of the probe have in common *)

Section TwoCalls.
Context `{TyTy}.

Import PathProbeCandidate.

(** The variant and the payload of a candidate, without its type. *)
Definition candidate_shape (c : PathProbeCandidate.t)
    : CandidateType * Candidate :=
  (type c, item c).

Definition outcome_shape (o : result (list PathProbeCandidate.t))
    : result (list (CandidateType * Candidate)) :=
  match o with
  | Ok cs => Ok (map candidate_shape cs)
  | Abort f => Abort f
  end.

(** Two states with the same registry enumerations whose type caches
    agree on the self type of every owning block and of every block, and
    on the type of every registered item.  The caches may differ anywhere
    else. *)
Definition same_reads (tc1 tc2 : TypeCheckBase) : Prop :=
  hirImplItemMappings (mappings tc1) = hirImplItemMappings (mappings tc2)
  /\ hirImplBlockMappings (mappings tc1)
     = hirImplBlockMappings (mappings tc2)
  /\ Forall
       (fun entry =>
          lookup_type (context tc1) (self_type_id (snd entry))
          = lookup_type (context tc2) (self_type_id (snd entry))
          /\ lookup_type (context tc1)
               (HIR.get_hirid
                  (HIR.item_mappings (item_decl (snd (fst entry)))))
             = lookup_type (context tc2)
                 (HIR.get_hirid
                    (HIR.item_mappings (item_decl (snd (fst entry))))))
       (hirImplItemMappings (mappings tc1))
  /\ Forall
       (fun entry =>
          lookup_type (context tc1) (self_type_id (snd entry))
          = lookup_type (context tc2) (self_type_id (snd entry)))
       (hirImplBlockMappings (mappings tc1)).

(** Two states of the trait resolver that answer the same reference for
    the trait path of every block of the registry. *)
Definition same_resolutions (resolver1 resolver2 : TraitResolver)
    (tc : TypeCheckBase) : Prop :=
  Forall
    (fun entry =>
       forall path,
         HIR.get_trait_ref (snd entry) = Some path ->
         @Resolve _ resolver1 path = @Resolve _ resolver2 path)
    (hirImplBlockMappings (mappings tc)).

(** Builders that compute the same types. *)
Definition same_builders
    (builders1 builders2 : TraitItemReference.Builders) : Prop :=
  forall r decl,
    @TraitItemReference.get_type_from_typealias _ builders1 r decl
    = @TraitItemReference.get_type_from_typealias _ builders2 r decl
    /\ @TraitItemReference.get_type_from_constant _ builders1 r decl
       = @TraitItemReference.get_type_from_constant _ builders2 r decl
    /\ @TraitItemReference.get_type_from_fn _ builders1 r decl
       = @TraitItemReference.get_type_from_fn _ builders2 r decl.

End TwoCalls.

(** ** A small program, after the scenarios of the specification

    Type [Foo] has an inherent block with function [bar] and implements
    trait [T], whose item [baz] has a default body and whose item [qux] has
    none.  A further inherent block, for [Bar], is not type-checked yet. *)

Module Scenario.

Inductive Ty : Type :=
| Foo
| Bar
| Signature (id : HirId)
| Error (id : HirId).

Definition Ty_eqb (a b : Ty) : bool :=
  match a, b with
  | Foo, Foo | Bar, Bar => true
  | Signature i, Signature j | Error i, Error j => N.eqb i j
  | _, _ => false
  end.

#[local] Instance tyty : TyTy :=
  {| BaseType := Ty; ErrorType := Error;
     can_eq := fun a b _ => Ty_eqb a b;
     SubstitutionParamMapping := unit |}.

Definition node (id : HirId) : HIR.NodeMapping := {| HIR.get_hirid := id |}.

#[local] Instance builders : TraitItemReference.Builders :=
  {| TraitItemReference.get_type_from_typealias := fun _ item =>
       Signature (HIR.get_hirid (HIR.trait_item_mappings item));
     TraitItemReference.get_type_from_constant := fun _ item =>
       Signature (HIR.get_hirid (HIR.trait_item_mappings item));
     TraitItemReference.get_type_from_fn := fun _ item =>
       Signature (HIR.get_hirid (HIR.trait_item_mappings item)) |}.

Definition trait_item (name : string) (optional : bool) (id : HirId)
    : @TraitItemReference.t tyty :=
  {| TraitItemReference.identifier := name;
     TraitItemReference.optional_flag := optional;
     TraitItemReference.type := TraitItemReference.FN;
     TraitItemReference.hir_trait_item :=
       Some {| HIR.trait_item_mappings := node id |};
     TraitItemReference.inherited_substitutions := [];
     TraitItemReference.locus := id;
     TraitItemReference.self := None |}.

Definition baz := trait_item "baz" true 51%N.
Definition qux := trait_item "qux" false 52%N.

(** An item of kind ERROR that still has a declaration. *)
Definition broken : @TraitItemReference.t tyty :=
  {| TraitItemReference.identifier := "broken";
     TraitItemReference.optional_flag := false;
     TraitItemReference.type := TraitItemReference.ERROR;
     TraitItemReference.hir_trait_item :=
       Some {| HIR.trait_item_mappings := node 53%N |};
     TraitItemReference.inherited_substitutions := [];
     TraitItemReference.locus := 53%N;
     TraitItemReference.self := None |}.

Definition trait_T : @TraitReference.t tyty :=
  {| TraitReference.hir_trait_ref :=
       Some {| HIR.trait_name := "T"; HIR.trait_mappings := node 50%N;
               HIR.trait_locus := 50%N |};
     TraitReference.item_refs := [baz; qux] |}.

Definition path_T : HIR.TypePath := {| HIR.path_mappings := node 40%N |}.
Definition path_unknown : HIR.TypePath := {| HIR.path_mappings := node 41%N |}.

#[local] Instance resolver : TraitResolver :=
  {| Resolve := fun path =>
       if N.eqb (HIR.get_hirid (HIR.path_mappings path)) 40%N
       then trait_T else TraitReference.error |}.

Definition block (id ty_id : HirId) (trait : option HIR.TypePath)
    : HIR.ImplBlock :=
  {| HIR.impl_mappings := node id;
     HIR.get_type := {| HIR.type_mappings := node ty_id |};
     HIR.get_trait_ref := trait |}.

Definition impl_Foo := block 1%N 2%N None.
Definition impl_T_for_Foo := block 3%N 4%N (Some path_T).
Definition impl_Bar := block 5%N 6%N None.
Definition impl_unknown_for_Foo := block 7%N 8%N (Some path_unknown).

Definition decl (name : string) (id : HirId) : HIR.ItemDecl :=
  {| HIR.item_name := name; HIR.item_mappings := node id;
     HIR.item_locus := id |}.

Definition fn_bar := HIR.Function (decl "bar" 10%N).
Definition fn_bar_of_Bar := HIR.Function (decl "bar" 11%N).
Definition const_max := HIR.ConstantItem (decl "MAX" 12%N).

Definition cache : @TypeCheckContext tyty :=
  {| resolved :=
       <[2%N := Foo]> (<[4%N := Foo]> (<[8%N := Foo]>
         (<[10%N := Signature 10%N]> (<[11%N := Signature 11%N]>
           (<[12%N := Signature 12%N]> ∅))))) |}.

Definition blocks : list (HirId * HIR.ImplBlock) :=
  [(1%N, impl_Foo); (3%N, impl_T_for_Foo); (5%N, impl_Bar);
   (7%N, impl_unknown_for_Foo)].

(** Every owning block of an item is type-checked. *)
Definition checked : @TypeCheckBase tyty :=
  {| mappings :=
       {| hirImplItemMappings :=
            [(10%N, fn_bar, impl_Foo); (12%N, const_max, impl_Foo)];
          hirImplBlockMappings := blocks |};
     context := cache |}.

(** The item of the block for [Bar] is registered, its block's self type
    (node 6%N) is not in the cache. *)
Definition unchecked : @TypeCheckBase tyty :=
  {| mappings :=
       {| hirImplItemMappings :=
            [(10%N, fn_bar, impl_Foo); (11%N, fn_bar_of_Bar, impl_Bar)];
          hirImplBlockMappings := blocks |};
     context := cache |}.

(** A second state of the compiler: the same registry, a cache filled in
    another order that also holds the type of a node no block or item of
    the registry has. *)
Definition checked_elsewhere : @TypeCheckBase tyty :=
  {| mappings := mappings checked;
     context :=
       {| resolved :=
            <[99%N := Bar]> (<[12%N := Signature 12%N]>
              (<[11%N := Signature 11%N]> (<[10%N := Signature 10%N]>
                (<[8%N := Foo]> (<[4%N := Foo]> (<[2%N := Foo]> ∅)))))) |} |}.

(** A resolver that knows one more trait path, which no block has. *)
Definition resolver_again : @TraitResolver tyty :=
  {| Resolve := fun path =>
       if N.eqb (HIR.get_hirid (HIR.path_mappings path)) 40%N
          || N.eqb (HIR.get_hirid (HIR.path_mappings path)) 99%N
       then trait_T else TraitReference.error |}.

(** Builders that answer other types than [builders]. *)
Definition builders_again : @TraitItemReference.Builders tyty :=
  {| TraitItemReference.get_type_from_typealias := fun _ _ => Bar;
     TraitItemReference.get_type_from_constant := fun _ _ => Bar;
     TraitItemReference.get_type_from_fn := fun _ _ => Bar |}.

Definition segment (name : string) : HIR.PathIdentSegment :=
  {| HIR.as_string := name |}.

Definition bar_candidate : @PathProbeCandidate.t tyty :=
  {| PathProbeCandidate.type := PathProbeCandidate.IMPL_FUNC;
     PathProbeCandidate.ty := Signature 10%N;
     PathProbeCandidate.item :=
       PathProbeCandidate.impl
         {| PathProbeCandidate.impl_item := fn_bar;
            PathProbeCandidate.parent := Some impl_Foo |} |}.

Definition baz_candidate : @PathProbeCandidate.t tyty :=
  {| PathProbeCandidate.type := PathProbeCandidate.TRAIT_FUNC;
     PathProbeCandidate.ty := Signature 51%N;
     PathProbeCandidate.item :=
       PathProbeCandidate.trait
         {| PathProbeCandidate.trait_ref := trait_T;
            PathProbeCandidate.item_ref := baz |} |}.

(** A mandatory item that prints like [baz]. *)
Definition baz_required := trait_item "baz" false 54%N.

#[local] Instance printer : TraitReference.NodeMappingPrinter :=
  {| TraitReference.mappings_as_string := fun m =>
       if N.eqb (HIR.get_hirid m) 50%N then "T#50" else "?" |}.

End Scenario.

(** * The scenarios, run *)

Example scenario_probe_bar :
  @PathProbeType.Probe Scenario.tyty Scenario.resolver Scenario.builders
    Scenario.checked Scenario.Foo (Scenario.segment "bar")
  = Ok [Scenario.bar_candidate].
Proof. vm_compute. reflexivity. Qed.

Example scenario_probe_baz :
  @PathProbeType.Probe Scenario.tyty Scenario.resolver Scenario.builders
    Scenario.checked Scenario.Foo (Scenario.segment "baz")
  = Ok [Scenario.baz_candidate].
Proof. vm_compute. reflexivity. Qed.

Example scenario_probe_qux :
  @PathProbeType.Probe Scenario.tyty Scenario.resolver Scenario.builders
    Scenario.checked Scenario.Foo (Scenario.segment "qux")
  = Ok [].
Proof. vm_compute. reflexivity. Qed.

Example scenario_scan_bounds :
  @TypeBoundsProbe.Probe Scenario.tyty Scenario.resolver
    Scenario.checked Scenario.Foo
  = [Scenario.trait_T].
Proof. vm_compute. reflexivity. Qed.

(** * Properties *)

(** ** Strings *)

Lemma string_compare_refl (a : string) : String.compare a a = Eq.
Proof.
  pose proof (String.compare_antisym a a) as Hanti.
  destruct (String.compare a a); simpl in Hanti; congruence.
Qed.

Lemma compare_zero_iff (a b : string) :
  (compare a b =? 0)%Z = true <-> a = b.
Proof.
  unfold compare. split.
  - destruct (String.compare a b) eqn:Hcmp; simpl; try discriminate.
    intros _. now apply String.compare_eq_iff.
  - intros ->. now rewrite string_compare_refl.
Qed.

Lemma compare_zero_eqb (a b : string) :
  (compare a b =? 0)%Z = String.eqb a b.
Proof.
  destruct (String.eqb a b) eqn:Heqb.
  - apply compare_zero_iff. now apply String.eqb_eq.
  - destruct (compare a b =? 0)%Z eqn:Hcmp; [|reflexivity].
    apply compare_zero_iff in Hcmp. apply String.eqb_eq in Hcmp. congruence.
Qed.

Lemma compare_nonzero_iff (a b : string) :
  (compare a b =? 0)%Z = false <-> a <> b.
Proof.
  rewrite <- compare_zero_iff. destruct (compare a b =? 0)%Z; split; congruence.
Qed.

(** ** Trait items and trait references *)

Section TraitItems.
Context `{TyTy}.

Import TraitItemReference.

Lemma is_error_iff_kind (r : TraitItemReference.t) :
  is_error r = true <-> type r = ERROR.
Proof. unfold is_error. destruct (type r); simpl; split; congruence. Qed.

Lemma is_error_error_node : is_error error_node = true.
Proof. reflexivity. Qed.

Lemma lookup_trait_item_from_found (before after : list TraitItemReference.t)
    (item : TraitItemReference.t) (name : string) :
  Forall (fun i => get_identifier i <> name) before ->
  get_identifier item = name ->
  TraitReference.lookup_trait_item_from (before ++ item :: after) name
  = item.
Proof.
  intros Hbefore Hitem.
  induction Hbefore as [|i before Hi _ IH]; simpl.
  - rewrite Hitem. now rewrite (proj2 (compare_zero_iff name name) eq_refl).
  - rewrite (proj2 (compare_nonzero_iff name (get_identifier i)));
      [exact IH | congruence].
Qed.

Lemma lookup_trait_item_from_missing (items : list TraitItemReference.t)
    (name : string) :
  Forall (fun i => get_identifier i <> name) items ->
  TraitReference.lookup_trait_item_from items name = error_node.
Proof.
  induction 1 as [|i items Hi _ IH]; simpl; [reflexivity|].
  rewrite (proj2 (compare_nonzero_iff name (get_identifier i)));
    [exact IH | congruence].
Qed.

(** Every sequence of items either has a first item called [name] or has
    none at all. *)
Lemma first_named_or_none (items : list TraitItemReference.t)
    (name : string) :
  (exists before item after,
      items = before ++ item :: after /\
      Forall (fun i => get_identifier i <> name) before /\
      get_identifier item = name)
  \/ Forall (fun i => get_identifier i <> name) items.
Proof.
  induction items as [|i items IH].
  - right. constructor.
  - destruct (String.eqb (get_identifier i) name) eqn:Hname.
    + apply String.eqb_eq in Hname.
      left. exists [], i, items. repeat split; [constructor | exact Hname].
    + apply String.eqb_neq in Hname.
      destruct IH as [(before & item & after & -> & Hbefore & Hitem) | Hnone].
      * left. exists (i :: before), item, after.
        repeat split; [constructor; assumption | exact Hitem].
      * right. constructor; assumption.
Qed.

(** C7. For every trait reference and every name, [lookup_trait_item]
    answers the first item of the trait's item sequence whose identifier
    is the name; when no item has that identifier it answers the shared
    error sentinel [error_node], on which [is_error] holds.  The answer is
    always an item reference, never a null one. *)
Theorem C7_lookup_trait_item_first_or_sentinel
    (r : TraitReference.t) (name : string) :
  ((exists before item after,
       TraitReference.item_refs r = before ++ item :: after /\
       Forall (fun i => get_identifier i <> name) before /\
       get_identifier item = name /\
       TraitReference.lookup_trait_item r name = item)
   \/ (Forall (fun i => get_identifier i <> name)
             (TraitReference.item_refs r) /\
       TraitReference.lookup_trait_item r name = error_node))
  /\ is_error error_node = true.
Proof.
  split; [|exact is_error_error_node].
  unfold TraitReference.lookup_trait_item.
  destruct (first_named_or_none (TraitReference.item_refs r) name)
    as [(before & item & after & Hitems & Hbefore & Hitem) | Hnone].
  - left. exists before, item, after. rewrite Hitems at 2.
    repeat split; try assumption.
    now apply lookup_trait_item_from_found.
  - right. split; [exact Hnone|].
    now apply lookup_trait_item_from_missing.
Qed.

End TraitItems.

(** ** Candidates *)

Section Candidates.
Context `{TyTy}.

Import PathProbeCandidate.

Lemma is_impl_candidate_negb (c : PathProbeCandidate.t) :
  is_impl_candidate c = negb (is_trait_candidate c).
Proof.
  unfold is_impl_candidate, is_trait_candidate. now destruct (type c).
Qed.

(** C9. For every candidate exactly one of [is_impl_candidate] and
    [is_trait_candidate] holds: the first holds exactly for the three
    inherent discriminants, the second exactly for the three trait
    discriminants. *)
Theorem C9_candidate_is_impl_xor_trait (c : PathProbeCandidate.t) :
  is_impl_candidate c = negb (is_trait_candidate c)
  /\ (is_impl_candidate c = true <->
      type c = IMPL_CONST \/ type c = IMPL_TYPE_ALIAS
      \/ type c = IMPL_FUNC)
  /\ (is_trait_candidate c = true <->
      type c = TRAIT_ITEM_CONST \/ type c = TRAIT_TYPE_ALIAS
      \/ type c = TRAIT_FUNC).
Proof.
  unfold is_impl_candidate, is_trait_candidate.
  destruct (type c); simpl; repeat split; intros;
    try discriminate; try reflexivity;
    repeat match goal with
           | Hor : _ \/ _ |- _ => destruct Hor
           end;
    try discriminate; auto.
Qed.

End Candidates.

(** ** The type of a trait item *)

Section ItemTypes.
Context `{TraitItemReference.Builders}.

Import TraitItemReference.

Lemma get_tyty_null (r : TraitItemReference.t) :
  hir_trait_item r = None -> get_tyty r = Abort AssertFailed.
Proof. intros Hnull. unfold get_tyty. now rewrite Hnull. Qed.

Lemma get_tyty_declared (r : TraitItemReference.t) (item : HIR.TraitItem) :
  hir_trait_item r = Some item ->
  get_tyty r =
    Ok match type r with
       | CONST => get_type_from_constant r item
       | TYPE => get_type_from_typealias r item
       | FN => get_type_from_fn r item
       | ERROR => ErrorType (HIR.get_hirid (HIR.trait_item_mappings item))
       end.
Proof.
  intros Hitem. unfold get_tyty, get_error, get_mappings.
  rewrite Hitem. simpl. now destruct (type r).
Qed.

(** C6, as the code has it.  [get_tyty] first asserts that the
    declaration reference is not null.  On an item of kind ERROR that has a
    declaration it answers the error type built from that declaration's
    id; on an item without declaration, the shared sentinel among them, the
    assertion fails; on every kind it answers a type as soon as the
    declaration reference is not null. *)
Theorem C6_get_tyty_error_kind_needs_declaration
    (r : TraitItemReference.t) :
  (forall item,
      hir_trait_item r = Some item -> type r = ERROR ->
      get_tyty r
      = Ok (ErrorType (HIR.get_hirid (HIR.trait_item_mappings item))))
  /\ (hir_trait_item r = None -> get_tyty r = Abort AssertFailed)
  /\ (forall item,
        hir_trait_item r = Some item -> exists ty, get_tyty r = Ok ty).
Proof.
  repeat split.
  - intros item Hitem Hkind.
    rewrite (get_tyty_declared r item Hitem). now rewrite Hkind.
  - apply get_tyty_null.
  - intros item Hitem. rewrite (get_tyty_declared r item Hitem). eauto.
Qed.

End ItemTypes.

(** ** The bound scan *)

Section BoundScan.
Context `{TraitResolver}.

Import TypeBoundsProbe.

Lemma scan_block_appends (p : TypeBoundsProbe.t) (id : HirId)
    (impl : HIR.ImplBlock) (paths : list HIR.TypePath) :
  scan_block p id impl paths = (paths ++ block_paths p impl, true).
Proof.
  unfold block_paths, scan_block.
  destruct (HIR.get_trait_ref impl) as [path|]; simpl;
    [|now rewrite app_nil_r].
  destruct (lookup_type _ _) as [impl_type|]; simpl;
    [|now rewrite app_nil_r].
  destruct (can_eq _ _ _); simpl; [reflexivity | now rewrite app_nil_r].
Qed.

Lemma iterate_blocks_scan (p : TypeBoundsProbe.t)
    (blocks : list (HirId * HIR.ImplBlock)) (paths : list HIR.TypePath) :
  iterate_blocks blocks (scan_block p) paths
  = paths ++ flat_map (fun entry => block_paths p (snd entry)) blocks.
Proof.
  revert paths. induction blocks as [|[id impl] blocks IH]; intros paths.
  - simpl. now rewrite app_nil_r.
  - simpl. rewrite scan_block_appends. rewrite IH. now rewrite <- app_assoc.
Qed.

Lemma resolve_paths_filter (paths : list HIR.TypePath)
    (refs : list TraitReference.t) :
  resolve_paths paths refs
  = refs ++ List.filter (fun r => negb (TraitReference.is_error r))
              (map Resolve paths).
Proof.
  revert refs. induction paths as [|path paths IH]; intros refs; simpl.
  - now rewrite app_nil_r.
  - destruct (negb (TraitReference.is_error (Resolve path))); rewrite IH.
    + now rewrite <- app_assoc.
    + reflexivity.
Qed.

Lemma Probe_unfold (tc : TypeCheckBase) (receiver : BaseType) :
  Probe tc receiver
  = List.filter (fun r => negb (TraitReference.is_error r))
      (map Resolve
         (flat_map
            (fun entry =>
               block_paths
                 {| base := tc; receiver := receiver;
                    trait_references := [] |} (snd entry))
            (hirImplBlockMappings (mappings tc)))).
Proof.
  unfold Probe, scan, iterate_impl_blocks. simpl.
  rewrite resolve_paths_filter, iterate_blocks_scan. reflexivity.
Qed.

(** C3. For every receiver, no trait reference in the sequence
    [ScanBounds] returns is an error reference: a trait path that resolves
    to the error reference is dropped before the list is returned. *)
Theorem C3_scan_bounds_no_error_reference (tc : TypeCheckBase)
    (receiver : BaseType) :
  Forall (fun r => TraitReference.is_error r = false) (Probe tc receiver).
Proof.
  rewrite Probe_unfold. apply Forall_forall. intros r Hin.
  apply list_elem_of_In, filter_In in Hin. destruct Hin as [_ Hok].
  now apply negb_true_iff.
Qed.

Lemma Probe_covers (tc : TypeCheckBase) (receiver self_ty : BaseType)
    (id : HirId) (impl : HIR.ImplBlock) (path : HIR.TypePath) :
  (id, impl) ∈ hirImplBlockMappings (mappings tc) ->
  HIR.get_trait_ref impl = Some path ->
  lookup_type (context tc) (self_type_id impl) = Some self_ty ->
  can_eq receiver self_ty false = true ->
  TraitReference.is_error (Resolve path) = false ->
  Resolve path ∈ Probe tc receiver.
Proof.
  intros Hin Htrait Hself Hcompat Hok.
  rewrite Probe_unfold. apply list_elem_of_In, filter_In.
  split; [|now rewrite Hok].
  apply in_map, in_flat_map. exists (id, impl).
  split; [now apply list_elem_of_In|].
  unfold block_paths, scan_block. simpl.
  unfold self_type_id in Hself. rewrite Htrait, Hself, Hcompat. simpl.
  now left.
Qed.

(** C4. For every receiver [R] and every block of the registry that
    implements a trait, whose self type is in the type cache and is [R]
    itself (or any type [R] is compatible with), the trait of the block,
    when its path resolves to a reference that is not the error reference,
    is in the sequence [ScanBounds R] returns.  The scan compares with
    [can_eq], so "[R] itself" needs [can_eq] to accept [R] against [R].
    An inherent block and a block whose self type is not in the cache add
    nothing to the recorded paths. *)
Theorem C4_scan_bounds_coverage (tc : TypeCheckBase) (R : BaseType) :
  (can_eq R R false = true ->
   forall id impl path,
     (id, impl) ∈ hirImplBlockMappings (mappings tc) ->
     HIR.get_trait_ref impl = Some path ->
     lookup_type (context tc) (self_type_id impl) = Some R ->
     TraitReference.is_error (Resolve path) = false ->
     Resolve path ∈ Probe tc R)
  /\ (forall id impl path self_ty,
        (id, impl) ∈ hirImplBlockMappings (mappings tc) ->
        HIR.get_trait_ref impl = Some path ->
        lookup_type (context tc) (self_type_id impl) = Some self_ty ->
        can_eq R self_ty false = true ->
        TraitReference.is_error (Resolve path) = false ->
        Resolve path ∈ Probe tc R)
  /\ (forall p id impl paths,
        HIR.get_trait_ref impl = None ->
        scan_block p id impl paths = (paths, true))
  /\ (forall p id impl paths,
        lookup_type (context (base p)) (self_type_id impl) = None ->
        scan_block p id impl paths = (paths, true)).
Proof.
  split; [|split; [|split]].
  - intros Hrefl id impl path Hin Htrait Hself Hok.
    exact (Probe_covers tc R R id impl path Hin Htrait Hself Hrefl Hok).
  - intros id impl path self_ty. apply Probe_covers.
  - intros p id impl paths Htrait. unfold scan_block. now rewrite Htrait.
  - intros p id impl paths Hmiss. unfold scan_block.
    unfold self_type_id in Hmiss. rewrite Hmiss.
    now destruct (HIR.get_trait_ref impl).
Qed.

End BoundScan.

(** ** The inherent pass *)

Section InherentPass.
Context `{TyTy}.

Import PathProbeCandidate PathProbeType.

Lemma same_probe_refl (p : PathProbeType.t) : same_probe p p.
Proof. now repeat split. Qed.

Lemma same_probe_trans (p q r : PathProbeType.t) :
  same_probe p q -> same_probe q r -> same_probe p r.
Proof. unfold same_probe. intros (-> & -> & ->) (-> & -> & ->). auto. Qed.

Lemma accept_vis_unfold (item : HIR.ImplItem) (p : PathProbeType.t) :
  accept_vis item p =
    if named (search p) item then
      match lookup_type (context (base p))
              (HIR.get_hirid (HIR.item_mappings (item_decl item))) with
      | None => Abort AssertFailed
      | Some ty =>
          Ok (push_back p
                {| type := impl_candidate_type item; ty := ty;
                   item := impl {| impl_item := item;
                                   parent := current_impl p |} |})
      end
    else Ok p.
Proof.
  unfold named.
  destruct item as [d|d|d]; simpl;
    unfold visit_TypeAlias, visit_ConstantItem, visit_Function,
      HIR.get_new_type_name, HIR.get_identifier, HIR.get_function_name;
    rewrite compare_zero_eqb; reflexivity.
Qed.

Lemma process_impl_item_candidate_unfold (id : HirId)
    (item : HIR.ImplItem) (owner : HIR.ImplBlock) (p : PathProbeType.t) :
  process_impl_item_candidate id item owner p =
    match lookup_type (context (base p)) (self_type_id owner) with
    | None => Abort AssertFailed
    | Some self_ty =>
        if can_eq (receiver p) self_ty false && named (search p) item then
          match lookup_type (context (base p))
                  (HIR.get_hirid (HIR.item_mappings (item_decl item))) with
          | None => Abort AssertFailed
          | Some ty =>
              Ok (push_back (set_current_impl p (Some owner))
                    {| type := impl_candidate_type item; ty := ty;
                       item := impl {| impl_item := item;
                                       parent := Some owner |} |})
          end
        else Ok (set_current_impl p (Some owner))
    end.
Proof.
  unfold process_impl_item_candidate, self_type_id. simpl.
  destruct (lookup_type _ _) as [self_ty|]; [|reflexivity].
  destruct (can_eq _ _ _); simpl; [|reflexivity].
  rewrite accept_vis_unfold. reflexivity.
Qed.

Lemma process_impl_item_candidate_ok (id : HirId) (item : HIR.ImplItem)
    (owner : HIR.ImplBlock) (p p' : PathProbeType.t) :
  process_impl_item_candidate id item owner p = Ok p' ->
  same_probe p p'
  /\ entry_ready (base p) (receiver p) (search p) (id, item, owner)
  /\ candidates p' =
     candidates p ++
     inherent_entry_candidates (base p) (receiver p) (search p)
       (id, item, owner).
Proof.
  rewrite process_impl_item_candidate_unfold.
  unfold entry_ready, inherent_entry_candidates, inherent_candidate,
    compatible_block.
  destruct (lookup_type _ (self_type_id owner)) as [self_ty|];
    [|discriminate].
  destruct (can_eq _ _ _ && named _ _).
  - destruct (lookup_type _ _) as [ty|]; [|discriminate].
    intros [= <-]. simpl. repeat split; eauto.
  - intros [= <-]. simpl. rewrite app_nil_r.
    repeat split; eauto; discriminate.
Qed.

Lemma process_impl_item_candidate_abort (id : HirId) (item : HIR.ImplItem)
    (owner : HIR.ImplBlock) (p : PathProbeType.t) (f : Fatal) :
  process_impl_item_candidate id item owner p = Abort f ->
  f = AssertFailed.
Proof.
  rewrite process_impl_item_candidate_unfold.
  destruct (lookup_type _ (self_type_id owner)); [|congruence].
  destruct (can_eq _ _ _ && named _ _); [|discriminate].
  destruct (lookup_type _ _); [discriminate | congruence].
Qed.

Lemma iterate_items_ok
    (items : list (HirId * HIR.ImplItem * HIR.ImplBlock))
    (p p' : PathProbeType.t) :
  iterate_items items impl_item_visitor p = Ok p' ->
  same_probe p p'
  /\ Forall (entry_ready (base p) (receiver p) (search p)) items
  /\ candidates p' =
     candidates p ++
     flat_map (inherent_entry_candidates (base p) (receiver p) (search p))
       items.
Proof.
  revert p. induction items as [|[[id item] owner] items IH]; intros p.
  - simpl. intros [= <-]. rewrite app_nil_r.
    split; [apply same_probe_refl | split; [constructor | reflexivity]].
  - simpl. unfold impl_item_visitor at 1.
    destruct (process_impl_item_candidate id item owner p) as [q|f]
      eqn:Hstep; simpl; [|discriminate].
    intros Hrest.
    apply process_impl_item_candidate_ok in Hstep.
    destruct Hstep as (Hsame & Hready & Hcands).
    apply IH in Hrest. destruct Hrest as (Hsame' & Hreadys & Hcands').
    destruct Hsame as (Hb & Hr & Hs).
    rewrite Hb, Hr, Hs in Hreadys, Hcands'.
    split; [|split].
    + eapply same_probe_trans; [|exact Hsame']. now repeat split.
    + constructor; assumption.
    + rewrite Hcands', Hcands. now rewrite <- app_assoc.
Qed.

Lemma iterate_items_abort
    (items : list (HirId * HIR.ImplItem * HIR.ImplBlock))
    (p : PathProbeType.t) (f : Fatal) :
  iterate_items items impl_item_visitor p = Abort f -> f = AssertFailed.
Proof.
  revert p. induction items as [|[[id item] owner] items IH]; intros p.
  - discriminate.
  - simpl. unfold impl_item_visitor at 1.
    destruct (process_impl_item_candidate id item owner p) as [q|g]
      eqn:Hstep; simpl.
    + apply IH.
    + intros [= <-]. eapply process_impl_item_candidate_abort, Hstep.
Qed.

Lemma iterate_items_miss
    (items : list (HirId * HIR.ImplItem * HIR.ImplBlock))
    (p : PathProbeType.t) (id : HirId) (item : HIR.ImplItem)
    (owner : HIR.ImplBlock) :
  (id, item, owner) ∈ items ->
  lookup_type (context (base p)) (self_type_id owner) = None ->
  iterate_items items impl_item_visitor p = Abort AssertFailed.
Proof.
  intros Hin Hmiss.
  destruct (iterate_items items impl_item_visitor p) as [p'|f] eqn:Hrun.
  - apply iterate_items_ok in Hrun. destruct Hrun as (_ & Hreadys & _).
    rewrite Forall_forall in Hreadys. specialize (Hreadys _ Hin).
    destruct Hreadys as [Hself _]. rewrite Hmiss in Hself.
    now destruct Hself.
  - now rewrite (iterate_items_abort _ _ _ Hrun).
Qed.

(** The inherent pass answers as soon as every entry is ready. *)
Lemma iterate_items_total
    (items : list (HirId * HIR.ImplItem * HIR.ImplBlock))
    (p : PathProbeType.t) :
  Forall (entry_ready (base p) (receiver p) (search p)) items ->
  exists p', iterate_items items impl_item_visitor p = Ok p'.
Proof.
  intros Hready. revert p Hready.
  induction items as [|[[id item] owner] items IH]; intros p Hready.
  - simpl. eauto.
  - inversion Hready as [|? ? Hentry Hrest]; subst.
    destruct Hentry as [[self_ty Hself] Hitem].
    simpl. unfold impl_item_visitor at 1.
    rewrite process_impl_item_candidate_unfold, Hself.
    unfold compatible_block in Hitem. rewrite Hself in Hitem.
    destruct (can_eq _ _ _ && named _ _); simpl.
    + destruct (Hitem eq_refl) as [ty Hty]. rewrite Hty. apply IH.
      exact Hrest.
    + apply IH. exact Hrest.
Qed.

Lemma inherent_candidates_are_impl
    (tc : TypeCheckBase) (R : BaseType) (name : HIR.PathIdentSegment)
    (items : list (HirId * HIR.ImplItem * HIR.ImplBlock)) :
  Forall (fun c => is_impl_candidate c = true
                   /\ is_trait_candidate c = false)
    (flat_map (inherent_entry_candidates tc R name) items).
Proof.
  apply Forall_forall. intros c Hin.
  apply list_elem_of_In, in_flat_map in Hin.
  destruct Hin as ([[id item] owner] & _ & Hin).
  unfold inherent_entry_candidates, inherent_candidate in Hin.
  destruct (compatible_block _ _ _ && named _ _); [|destruct Hin].
  destruct (lookup_type _ _); [|destruct Hin].
  destruct Hin as [<-|[]]. now destruct item.
Qed.

End InherentPass.

(** ** The trait pass *)

Section TraitPass.
Context `{TyTy} `{!TraitItemReference.Builders}.

Import PathProbeCandidate PathProbeType.

Lemma candidate_type_of_trait_item_ok
    (kind : TraitItemReference.TraitItemType) :
  kind <> TraitItemReference.ERROR ->
  exists ct,
    candidate_type_of_trait_item kind = Ok ct
    /\ (ct = TRAIT_FUNC \/ ct = TRAIT_ITEM_CONST \/ ct = TRAIT_TYPE_ALIAS).
Proof. destruct kind; intros Hkind; [eauto 6 ..|congruence]. Qed.

Lemma get_tyty_abort (r : TraitItemReference.t) (f : Fatal) :
  TraitItemReference.get_tyty r = Abort f -> f = AssertFailed.
Proof.
  destruct (TraitItemReference.hir_trait_item r) as [item|] eqn:Hitem.
  - rewrite (get_tyty_declared r item Hitem). discriminate.
  - rewrite (get_tyty_null r Hitem). congruence.
Qed.

(** One turn of the loop: nothing happens, or one trait candidate is
    pushed, or the type of the item cannot be computed. *)
Lemma process_trait_for_candidates_cases (tr : TraitReference.t)
    (p : PathProbeType.t) :
  let found :=
    TraitReference.lookup_trait_item tr (HIR.as_string (search p)) in
  (process_trait_for_candidates tr p = Ok p
   /\ (TraitItemReference.is_error found = true
       \/ TraitItemReference.is_optional found = false))
  \/ (TraitItemReference.is_error found = false
      /\ TraitItemReference.is_optional found = true
      /\ ((exists ct ty,
              (ct = TRAIT_FUNC \/ ct = TRAIT_ITEM_CONST
               \/ ct = TRAIT_TYPE_ALIAS)
              /\ candidate_type_of_trait_item
                   (TraitItemReference.get_trait_item_type found) = Ok ct
              /\ process_trait_for_candidates tr p =
                 Ok (push_back p
                       {| type := ct; ty := ty;
                          item := trait {| trait_ref := tr;
                                           item_ref := found |} |}))
          \/ process_trait_for_candidates tr p = Abort AssertFailed)).
Proof.
  intros found. unfold process_trait_for_candidates. fold found.
  destruct (TraitItemReference.is_error found) eqn:Herr; [left; auto|].
  destruct (TraitItemReference.is_optional found) eqn:Hopt; simpl;
    [|left; auto].
  right. repeat split.
  destruct (candidate_type_of_trait_item_ok
              (TraitItemReference.get_trait_item_type found))
    as (ct & -> & Hct).
  { intros Hkind. apply is_error_iff_kind in Hkind. congruence. }
  simpl.
  destruct (TraitItemReference.get_tyty found) as [ty|f] eqn:Hty; simpl.
  - left. exists ct, ty. auto.
  - right. now rewrite (get_tyty_abort _ _ Hty).
Qed.

Lemma process_traits_for_candidates_ok
    (all traits : list TraitReference.t) (p p' : PathProbeType.t) :
  (forall tr, tr ∈ traits -> tr ∈ all) ->
  process_traits_for_candidates traits p = Ok p' ->
  same_probe p p'
  /\ exists added,
      candidates p' = candidates p ++ added
      /\ Forall (trait_default_candidate all (search p)) added.
Proof.
  revert p. induction traits as [|tr traits IH]; intros p Hall.
  - simpl. intros [= <-]. split; [apply same_probe_refl|].
    exists []. rewrite app_nil_r. split; [reflexivity | constructor].
  - simpl.
    assert (Htr : tr ∈ all) by (apply Hall; left).
    assert (Hrest : forall tr', tr' ∈ traits -> tr' ∈ all)
      by (intros tr' Hin; apply Hall; now right).
    destruct (process_trait_for_candidates_cases tr p)
      as [[-> _] | (Herr & Hopt & [(ct & ty & Hct & _ & ->) | ->])];
      simpl.
    + apply IH. exact Hrest.
    + intros Hrun. apply IH in Hrun; [|exact Hrest].
      destruct Hrun as (Hsame & added & Hcands & Hadded).
      split; [exact Hsame|].
      simpl in Hcands, Hadded.
      eexists (_ :: added). split.
      * rewrite Hcands. rewrite <- app_assoc. reflexivity.
      * constructor; [|exact Hadded].
        split.
        -- unfold is_trait_candidate. simpl.
           destruct Hct as [->|[->| ->]]; reflexivity.
        -- exists tr. simpl. auto.
    + discriminate.
Qed.

Lemma process_traits_for_candidates_abort
    (traits : list TraitReference.t) (p : PathProbeType.t) (f : Fatal) :
  process_traits_for_candidates traits p = Abort f -> f = AssertFailed.
Proof.
  revert p. induction traits as [|tr traits IH]; intros p.
  - discriminate.
  - simpl.
    destruct (process_trait_for_candidates_cases tr p)
      as [[-> _] | (_ & _ & [(ct & ty & _ & _ & ->) | ->])]; simpl.
    + apply IH.
    + apply IH.
    + congruence.
Qed.

Lemma process_traits_for_candidates_total
    (traits : list TraitReference.t) (p : PathProbeType.t) :
  Forall (trait_ready (search p)) traits ->
  exists p', process_traits_for_candidates traits p = Ok p'.
Proof.
  intros Hready. revert p Hready.
  induction traits as [|tr traits IH]; intros p Hready.
  - simpl. eauto.
  - inversion Hready as [|? ? Htr Hrest]; subst. simpl.
    destruct (process_trait_for_candidates_cases tr p)
      as [[-> _] | (Herr & Hopt & [(ct & ty & _ & _ & ->) | Habort])];
      simpl.
    + apply IH. exact Hrest.
    + apply IH. exact Hrest.
    + exfalso. destruct (Htr Herr Hopt) as [item Hitem].
      unfold process_trait_for_candidates in Habort.
      rewrite Herr, Hopt in Habort. simpl in Habort.
      destruct (candidate_type_of_trait_item_ok
                  (TraitItemReference.get_trait_item_type
                     (TraitReference.lookup_trait_item tr
                        (HIR.as_string (search p)))))
        as (ct & Hct & _).
      { intros Hkind. apply is_error_iff_kind in Hkind. congruence. }
      rewrite Hct in Habort. simpl in Habort.
      rewrite (get_tyty_declared _ item Hitem) in Habort. discriminate.
Qed.

End TraitPass.

(** ** The probe *)

Section Probe.
Context `{TyTy} `{!TraitResolver} `{!TraitItemReference.Builders}.

Import PathProbeCandidate PathProbeType.

Lemma filter_all {A : Type} (f : A -> bool) (l : list A) :
  Forall (fun a => f a = true) l -> List.filter f l = l.
Proof. induction 1 as [|a l Ha _ IH]; simpl; [|rewrite Ha, IH]; auto. Qed.

Lemma filter_none {A : Type} (f : A -> bool) (l : list A) :
  Forall (fun a => f a = false) l -> List.filter f l = [].
Proof. induction 1 as [|a l Ha _ IH]; simpl; [|rewrite Ha, IH]; auto. Qed.

(** The sequence [Probe] returns: the inherent candidates in registry
    order, then trait-default candidates. *)
Lemma Probe_ok (tc : TypeCheckBase) (R : BaseType)
    (name : HIR.PathIdentSegment) (cs : list PathProbeCandidate.t) :
  Probe tc R name = Ok cs ->
  Forall (entry_ready tc R name) (hirImplItemMappings (mappings tc))
  /\ exists added,
      cs = inherent_candidates tc R name ++ added
      /\ Forall (trait_default_candidate (TypeBoundsProbe.Probe tc R) name)
           added.
Proof.
  unfold Probe, process_impl_items_for_candidates, iterate_impl_items.
  simpl.
  destruct (iterate_items _ _ _) as [p|f] eqn:Hitems; simpl;
    [|discriminate].
  apply iterate_items_ok in Hitems. simpl in Hitems.
  destruct Hitems as ((Hb & Hr & Hs) & Hready & Hcands).
  destruct (process_traits_for_candidates _ p) as [p'|f] eqn:Htraits;
    simpl; [|discriminate].
  intros [= <-].
  apply (process_traits_for_candidates_ok (TypeBoundsProbe.Probe tc R))
    in Htraits; [|auto].
  destruct Htraits as (_ & added & Hcands' & Hadded).
  split; [exact Hready|].
  exists added. rewrite Hs in Hadded. rewrite Hcands', Hcands.
  split; [reflexivity | exact Hadded].
Qed.

Lemma Probe_abort (tc : TypeCheckBase) (R : BaseType)
    (name : HIR.PathIdentSegment) (f : Fatal) :
  Probe tc R name = Abort f -> f = AssertFailed.
Proof.
  unfold Probe, process_impl_items_for_candidates, iterate_impl_items.
  simpl.
  destruct (iterate_items _ _ _) as [p|g] eqn:Hitems; simpl.
  - destruct (process_traits_for_candidates _ p) as [p'|g] eqn:Htraits;
      simpl; [discriminate|].
    intros [= <-]. eapply process_traits_for_candidates_abort, Htraits.
  - intros [= <-]. eapply iterate_items_abort, Hitems.
Qed.

(** [Probe] answers as soon as the cache is ready for every registry
    entry and every satisfied trait has the declaration of the item it
    answers. *)
Lemma Probe_total (tc : TypeCheckBase) (R : BaseType)
    (name : HIR.PathIdentSegment) :
  Forall (entry_ready tc R name) (hirImplItemMappings (mappings tc)) ->
  Forall (trait_ready name) (TypeBoundsProbe.Probe tc R) ->
  exists cs, Probe tc R name = Ok cs.
Proof.
  intros Hentries Htraits.
  unfold Probe, process_impl_items_for_candidates, iterate_impl_items.
  simpl.
  destruct (iterate_items_total (hirImplItemMappings (mappings tc))
              {| base := tc; receiver := R; search := name;
                 candidates := []; current_impl := None |} Hentries)
    as [p Hitems].
  rewrite Hitems. simpl.
  apply iterate_items_ok in Hitems. destruct Hitems as ((_ & _ & Hs) & _).
  simpl in Hs.
  destruct (process_traits_for_candidates_total
              (TypeBoundsProbe.Probe tc R) p) as [p' ->].
  { now rewrite Hs. }
  simpl. eauto.
Qed.

(** C1, as the code has it.  In the inherent pass the lookup of the owning
    block's self type is asserted, not skipped: when any (item, owning
    block) pair of the registry has an owning block whose self type is not
    in the type cache, [Probe] stops on the failed assertion and returns
    no candidate sequence. *)
Theorem C1_probe_asserts_owning_block_type (tc : TypeCheckBase)
    (R : BaseType) (name : HIR.PathIdentSegment)
    (id : HirId) (item : HIR.ImplItem) (owner : HIR.ImplBlock) :
  (id, item, owner) ∈ hirImplItemMappings (mappings tc) ->
  lookup_type (context tc) (self_type_id owner) = None ->
  Probe tc R name = Abort AssertFailed.
Proof.
  intros Hin Hmiss.
  unfold Probe, process_impl_items_for_candidates, iterate_impl_items.
  simpl. erewrite iterate_items_miss; [reflexivity | exact Hin | exact Hmiss].
Qed.

(** C2. For every receiver and name, every trait-default candidate in the
    sequence [Probe] returns carries one of the receiver's satisfied traits
    and the item that trait answers for the name, and that item is
    optional and is not an error item.  In the loop over the traits, a
    trait whose item for the name is not optional, or is the error
    sentinel, leaves the candidates as they are. *)
Theorem C2_probe_trait_defaults_are_optional (tc : TypeCheckBase)
    (R : BaseType) (name : HIR.PathIdentSegment)
    (cs : list PathProbeCandidate.t) :
  Probe tc R name = Ok cs ->
  (forall c, c ∈ cs -> is_trait_candidate c = true ->
     trait_default_candidate (TypeBoundsProbe.Probe tc R) name c)
  /\ (forall tr p,
        TraitItemReference.is_optional
          (TraitReference.lookup_trait_item tr (HIR.as_string (search p)))
        = false ->
        process_trait_for_candidates tr p = Ok p)
  /\ (forall tr p,
        TraitItemReference.is_error
          (TraitReference.lookup_trait_item tr (HIR.as_string (search p)))
        = true ->
        process_trait_for_candidates tr p = Ok p).
Proof.
  intros Hprobe. split; [|split].
  - apply Probe_ok in Hprobe.
    destruct Hprobe as (_ & added & -> & Hadded).
    intros c Hin Htrait. apply elem_of_app in Hin.
    destruct Hin as [Hin|Hin].
    + pose proof (inherent_candidates_are_impl tc R name
                    (hirImplItemMappings (mappings tc))) as Himpl.
      rewrite Forall_forall in Himpl.
      destruct (Himpl c Hin) as [_ Hno]. congruence.
    + rewrite Forall_forall in Hadded. now apply Hadded.
  - intros tr p Hopt. unfold process_trait_for_candidates.
    rewrite Hopt. simpl. now destruct (TraitItemReference.is_error _).
  - intros tr p Herr. unfold process_trait_for_candidates.
    now rewrite Herr.
Qed.

Lemma Probe_inherent (tc : TypeCheckBase) (R : BaseType)
    (name : HIR.PathIdentSegment) (cs : list PathProbeCandidate.t) :
  Probe tc R name = Ok cs ->
  List.filter is_impl_candidate cs = inherent_candidates tc R name.
Proof.
  intros Hprobe. apply Probe_ok in Hprobe.
  destruct Hprobe as (_ & added & -> & Hadded).
  pose proof (inherent_candidates_are_impl tc R name
                (hirImplItemMappings (mappings tc))) as Himpl.
  fold (inherent_candidates tc R name) in Himpl.
  rewrite List.filter_app. rewrite (filter_none _ added).
  - rewrite app_nil_r. apply filter_all.
    eapply Forall_impl; [exact Himpl|]. now intros c [].
  - eapply Forall_impl; [exact Hadded|]. intros c [Htrait _].
    rewrite is_impl_candidate_negb. now rewrite Htrait.
Qed.

(** C5. For every receiver and name, the inherent candidates of the
    sequence [Probe] returns are, in registry order, the candidates of the
    registry items whose identifier is the name and whose owning block has
    a self type the receiver is compatible with, non-strictly: each such
    item has its candidate in the sequence, and every inherent candidate
    of the sequence comes from such an item.  [Probe] does return a
    sequence when the cache is ready for the registry entries and for the
    satisfied traits. *)
Theorem C5_probe_inherent_candidates (tc : TypeCheckBase) (R : BaseType)
    (name : HIR.PathIdentSegment) :
  (Forall (entry_ready tc R name) (hirImplItemMappings (mappings tc)) ->
   Forall (trait_ready name) (TypeBoundsProbe.Probe tc R) ->
   exists cs, Probe tc R name = Ok cs)
  /\ (forall cs,
        Probe tc R name = Ok cs ->
        List.filter is_impl_candidate cs = inherent_candidates tc R name
        /\ (forall id item owner,
              (id, item, owner) ∈ hirImplItemMappings (mappings tc) ->
              compatible_block tc R owner = true ->
              named name item = true ->
              exists ty,
                lookup_type (context tc)
                  (HIR.get_hirid (HIR.item_mappings (item_decl item)))
                = Some ty
                /\ {| type := impl_candidate_type item; ty := ty;
                      item := impl {| impl_item := item;
                                      parent := Some owner |} |} ∈ cs)
        /\ (forall c,
              c ∈ cs -> is_impl_candidate c = true ->
              exists id item owner,
                (id, item, owner) ∈ hirImplItemMappings (mappings tc)
                /\ compatible_block tc R owner = true
                /\ named name item = true
                /\ type c = impl_candidate_type item
                /\ PathProbeCandidate.item c =
                   impl {| impl_item := item; parent := Some owner |})).
Proof.
  split; [apply Probe_total|].
  intros cs Hprobe.
  split; [now apply Probe_inherent|].
  apply Probe_ok in Hprobe.
  destruct Hprobe as (Hready & added & -> & Hadded).
  split.
  - intros id item owner Hin Hcompat Hnamed.
    rewrite Forall_forall in Hready.
    destruct (Hready _ Hin) as [_ Hitem].
    destruct Hitem as [ty Hty]; [now rewrite Hcompat, Hnamed|].
    exists ty. split; [exact Hty|].
    apply elem_of_app. left.
    apply list_elem_of_In, in_flat_map. exists (id, item, owner).
    split; [now apply list_elem_of_In|].
    unfold inherent_entry_candidates, inherent_candidate.
    rewrite Hcompat, Hnamed, Hty. now left.
  - intros c Hin Hc. apply elem_of_app in Hin.
    destruct Hin as [Hin|Hin].
    + apply list_elem_of_In, in_flat_map in Hin.
      destruct Hin as ([[id item] owner] & Hentry & Hin).
      unfold inherent_entry_candidates, inherent_candidate in Hin.
      destruct (compatible_block tc R owner) eqn:Hcompat;
        [|destruct Hin].
      destruct (named name item) eqn:Hnamed; [|destruct Hin].
      simpl in Hin. destruct (lookup_type _ _); [|destruct Hin].
      destruct Hin as [<-|[]].
      exists id, item, owner. apply list_elem_of_In in Hentry. auto.
    + rewrite Forall_forall in Hadded.
      destruct (Hadded c Hin) as [Htrait _].
      rewrite is_impl_candidate_negb, Htrait in Hc. discriminate.
Qed.

(** C10. In the trait pass the ERROR branch of the kind dispatch is never
    taken: [Probe] never stops on [gcc_unreachable].  [is_error] holds of
    an item reference exactly when its kind is ERROR, and an item that
    passed the [is_error] filter is dispatched to one of the three trait
    discriminants. *)
Theorem C10_probe_error_branch_unreachable (tc : TypeCheckBase)
    (R : BaseType) (name : HIR.PathIdentSegment) :
  Probe tc R name <> Abort Unreachable
  /\ (forall r : TraitItemReference.t,
        TraitItemReference.is_error r = true <->
        TraitItemReference.get_trait_item_type r = TraitItemReference.ERROR)
  /\ (forall r : TraitItemReference.t,
        TraitItemReference.is_error r = false ->
        exists ct,
          candidate_type_of_trait_item
            (TraitItemReference.get_trait_item_type r) = Ok ct
          /\ (ct = TRAIT_FUNC \/ ct = TRAIT_ITEM_CONST
              \/ ct = TRAIT_TYPE_ALIAS)).
Proof.
  split; [|split].
  - intros Habort. apply Probe_abort in Habort. discriminate.
  - intros r. apply is_error_iff_kind.
  - intros r Herr. apply candidate_type_of_trait_item_ok.
    intros Hkind. apply is_error_iff_kind in Hkind. congruence.
Qed.

End Probe.

(** * The properties on the scenario *)

Section OnTheScenario.

#[local] Existing Instance Scenario.tyty.
#[local] Existing Instance Scenario.resolver.
#[local] Existing Instance Scenario.builders.

Import Scenario.

(** C1 as the specification words it, "an entry whose owning block has no
    self type in the cache is skipped and [Probe] returns the candidates of
    the other entries", fails: the self type of the block for [Bar] is not
    in the cache, the other entry alone yields the candidate for [bar], and
    [Probe] stops on the assertion. *)
Lemma C1_probe_skips_unresolved_block_counterexample :
  (11%N, fn_bar_of_Bar, impl_Bar)
    ∈ hirImplItemMappings (mappings unchecked)
  /\ lookup_type (context unchecked) (self_type_id impl_Bar) = None
  /\ PathProbeType.Probe (skip_unresolved unchecked) Foo (segment "bar")
     = Ok [bar_candidate]
  /\ PathProbeType.Probe unchecked Foo (segment "bar") = Abort AssertFailed
  /\ PathProbeType.Probe unchecked Foo (segment "bar")
     <> PathProbeType.Probe (skip_unresolved unchecked) Foo (segment "bar").
Proof.
  split; [repeat constructor|].
  split; [vm_compute; reflexivity|].
  split; [vm_compute; reflexivity|].
  split; [vm_compute; reflexivity|].
  vm_compute. discriminate.
Qed.

Lemma C1_probe_asserts_owning_block_type_witness :
  (11%N, fn_bar_of_Bar, impl_Bar)
    ∈ hirImplItemMappings (mappings unchecked)
  /\ lookup_type (context unchecked) (self_type_id impl_Bar) = None
  /\ PathProbeType.Probe unchecked Foo (segment "bar") = Abort AssertFailed.
Proof.
  assert (Hin : (11%N, fn_bar_of_Bar, impl_Bar)
                  ∈ hirImplItemMappings (mappings unchecked))
    by repeat constructor.
  assert (Hmiss : lookup_type (context unchecked) (self_type_id impl_Bar)
                  = None)
    by (vm_compute; reflexivity).
  split; [exact Hin|]. split; [exact Hmiss|].
  exact (C1_probe_asserts_owning_block_type unchecked Foo (segment "bar")
           11%N fn_bar_of_Bar impl_Bar Hin Hmiss).
Defined.

Lemma C2_probe_trait_defaults_are_optional_witness :
  PathProbeType.Probe checked Foo (segment "baz") = Ok [baz_candidate]
  /\ trait_default_candidate (TypeBoundsProbe.Probe checked Foo)
       (segment "baz") baz_candidate
  /\ PathProbeType.Probe checked Foo (segment "qux") = Ok [].
Proof.
  assert (Hprobe : PathProbeType.Probe checked Foo (segment "baz")
                   = Ok [baz_candidate])
    by (vm_compute; reflexivity).
  split; [exact Hprobe|]. split; [|vm_compute; reflexivity].
  apply (proj1 (C2_probe_trait_defaults_are_optional checked Foo
                  (segment "baz") [baz_candidate] Hprobe)).
  - repeat constructor.
  - reflexivity.
Defined.

Lemma C4_scan_bounds_coverage_witness :
  can_eq Foo Foo false = true
  /\ (3%N, impl_T_for_Foo) ∈ hirImplBlockMappings (mappings checked)
  /\ HIR.get_trait_ref impl_T_for_Foo = Some path_T
  /\ lookup_type (context checked) (self_type_id impl_T_for_Foo) = Some Foo
  /\ TraitReference.is_error (Resolve path_T) = false
  /\ Resolve path_T ∈ TypeBoundsProbe.Probe checked Foo.
Proof.
  assert (Hin : (3%N, impl_T_for_Foo)
                  ∈ hirImplBlockMappings (mappings checked))
    by repeat constructor.
  assert (Hself : lookup_type (context checked)
                    (self_type_id impl_T_for_Foo) = Some Foo)
    by (vm_compute; reflexivity).
  split; [reflexivity|]. split; [exact Hin|]. split; [reflexivity|].
  split; [exact Hself|]. split; [reflexivity|].
  exact (proj1 (C4_scan_bounds_coverage checked Foo) eq_refl
           3%N impl_T_for_Foo path_T Hin eq_refl Hself eq_refl).
Defined.

Lemma C5_probe_inherent_candidates_witness :
  PathProbeType.Probe checked Foo (segment "bar") = Ok [bar_candidate]
  /\ List.filter PathProbeCandidate.is_impl_candidate [bar_candidate]
     = inherent_candidates checked Foo (segment "bar")
  /\ exists cs, PathProbeType.Probe checked Foo (segment "MAX") = Ok cs.
Proof.
  assert (Hprobe : PathProbeType.Probe checked Foo (segment "bar")
                   = Ok [bar_candidate])
    by (vm_compute; reflexivity).
  split; [exact Hprobe|]. split.
  - exact (proj1 (proj2 (C5_probe_inherent_candidates checked Foo
                           (segment "bar")) [bar_candidate] Hprobe)).
  - apply (proj1 (C5_probe_inherent_candidates checked Foo
                    (segment "MAX"))).
    + repeat constructor; try intros _; eexists; vm_compute; reflexivity.
    + repeat constructor. intros _ Hopt. vm_compute in Hopt. discriminate.
Defined.

(** C6 as the specification words it, "[get_tyty] answers an error type on
    every item of kind ERROR, the shared sentinel included, and is total",
    fails on the sentinel: its declaration reference is null and the
    assertion stops [get_tyty]. *)
Lemma C6_get_tyty_on_sentinel_counterexample :
  TraitItemReference.type TraitItemReference.error_node
  = TraitItemReference.ERROR
  /\ TraitItemReference.hir_trait_item TraitItemReference.error_node = None
  /\ TraitItemReference.get_tyty TraitItemReference.error_node
     = Abort AssertFailed
  /\ ~ (exists ty,
          TraitItemReference.get_tyty TraitItemReference.error_node
          = Ok ty).
Proof.
  repeat split. intros [ty Hty]. vm_compute in Hty. discriminate.
Qed.

Lemma C6_get_tyty_error_kind_needs_declaration_witness :
  TraitItemReference.hir_trait_item broken
  = Some {| HIR.trait_item_mappings := node 53%N |}
  /\ TraitItemReference.type broken = TraitItemReference.ERROR
  /\ TraitItemReference.get_tyty broken = Ok (ErrorType 53%N).
Proof.
  split; [reflexivity|]. split; [reflexivity|].
  exact (proj1 (C6_get_tyty_error_kind_needs_declaration broken)
           {| HIR.trait_item_mappings := node 53%N |} eq_refl eq_refl).
Defined.

Lemma C10_probe_error_branch_unreachable_witness :
  TraitItemReference.is_error baz = false
  /\ PathProbeType.candidate_type_of_trait_item
       (TraitItemReference.get_trait_item_type baz)
     = Ok PathProbeCandidate.TRAIT_FUNC
  /\ PathProbeType.Probe unchecked Foo (segment "bar")
     <> Abort Unreachable.
Proof.
  split; [reflexivity|]. split; [reflexivity|].
  exact (proj1 (C10_probe_error_branch_unreachable unchecked Foo
                  (segment "bar"))).
Defined.

End OnTheScenario.

(** * Further properties of the code *)

(** ** The lookup that filters by kind *)

Section TypedLookup.
Context `{TyTy}.

Import TraitItemReference.

Lemma TraitItemType_eqb_eq (a b : TraitItemType) :
  TraitItemType_eqb a b = true <-> a = b.
Proof. destruct a, b; simpl; split; congruence. Qed.

Lemma typed_lookup_step (item : TraitItemReference.t)
    (rest : list TraitItemReference.t) (name : string)
    (kind : TraitItemType) :
  (wanted name kind item /\
   TraitReference.lookup_trait_item_of_type_from (item :: rest) name kind
   = item)
  \/ (~ wanted name kind item /\
      TraitReference.lookup_trait_item_of_type_from (item :: rest) name kind
      = TraitReference.lookup_trait_item_of_type_from rest name kind).
Proof.
  simpl. unfold wanted.
  destruct (TraitItemType_eqb (get_trait_item_type item) kind) eqn:Hkind;
    simpl.
  - apply TraitItemType_eqb_eq in Hkind.
    destruct (compare name (get_identifier item) =? 0)%Z eqn:Hname.
    + apply compare_zero_iff in Hname. left. auto.
    + apply compare_nonzero_iff in Hname. right.
      split; [|reflexivity]. intros [_ Heq]. congruence.
  - right. split; [|reflexivity]. intros [Heq _].
    apply TraitItemType_eqb_eq in Heq. congruence.
Qed.

Lemma typed_lookup_from_cases (items : list TraitItemReference.t)
    (name : string) (kind : TraitItemType) :
  (exists before item after,
      items = before ++ item :: after
      /\ Forall (fun i => ~ wanted name kind i) before
      /\ wanted name kind item
      /\ TraitReference.lookup_trait_item_of_type_from items name kind
         = item)
  \/ (Forall (fun i => ~ wanted name kind i) items
      /\ TraitReference.lookup_trait_item_of_type_from items name kind
         = error_node).
Proof.
  induction items as [|i items IH].
  - right. split; [constructor | reflexivity].
  - destruct (typed_lookup_step i items name kind)
      as [[Hwanted Hfound] | [Hother Hnext]].
    + left. exists [], i, items. repeat split; try apply Hwanted; auto.
    + rewrite Hnext.
      destruct IH as [(before & item & after & -> & Hbefore & Hitem & Hfound)
                     | [Hnone Hfound]].
      * left. exists (i :: before), item, after.
        repeat split; try apply Hitem; auto.
      * right. split; [constructor; assumption | exact Hfound].
Qed.

(** X1. The lookup by name and kind answers the first item of the trait
    that has both the kind and the identifier asked for, passing over
    items that have only one of them; when there is none it answers the
    shared error sentinel. *)
Theorem lookup_trait_item_of_type_first_or_sentinel
    (r : TraitReference.t) (name : string) (kind : TraitItemType) :
  (exists before item after,
      TraitReference.item_refs r = before ++ item :: after
      /\ Forall (fun i => ~ wanted name kind i) before
      /\ wanted name kind item
      /\ TraitReference.lookup_trait_item_of_type r name kind = item)
  \/ (Forall (fun i => ~ wanted name kind i) (TraitReference.item_refs r)
      /\ TraitReference.lookup_trait_item_of_type r name kind = error_node).
Proof.
  unfold TraitReference.lookup_trait_item_of_type.
  destruct (typed_lookup_from_cases (TraitReference.item_refs r) name kind)
    as [(before & item & after & Hitems & Hbefore & Hitem & Hfound)
       | [Hnone Hfound]].
  - left. exists before, item, after. auto.
  - right. auto.
Qed.

(** X2. The two lookups agree: when the item the lookup by name answers
    has kind [kind], the lookup by name and [kind] answers the same item. *)
Theorem lookup_trait_item_of_type_agrees
    (r : TraitReference.t) (name : string) (kind : TraitItemType) :
  get_trait_item_type (TraitReference.lookup_trait_item r name) = kind ->
  TraitReference.lookup_trait_item_of_type r name kind
  = TraitReference.lookup_trait_item r name.
Proof.
  unfold TraitReference.lookup_trait_item_of_type,
    TraitReference.lookup_trait_item.
  induction (TraitReference.item_refs r) as [|i items IH]; [reflexivity|].
  simpl.
  destruct (compare name (get_identifier i) =? 0)%Z eqn:Hname.
  - intros Hkind. apply TraitItemType_eqb_eq in Hkind.
    now rewrite Hkind.
  - intros Hkind. rewrite (IH Hkind).
    now destruct (negb (TraitItemType_eqb (get_trait_item_type i) kind)).
Qed.

(** X3. A result of either lookup that is not an error item is one of the
    trait's items and has the identifier asked for, and the kind asked for
    in the lookup by kind.  Asking for the kind ERROR always answers an
    error item. *)
Theorem lookup_results_are_items
    (r : TraitReference.t) (name : string) (kind : TraitItemType) :
  (is_error (TraitReference.lookup_trait_item r name) = false ->
   TraitReference.lookup_trait_item r name ∈ TraitReference.item_refs r
   /\ get_identifier (TraitReference.lookup_trait_item r name) = name)
  /\ (is_error (TraitReference.lookup_trait_item_of_type r name kind)
      = false ->
      TraitReference.lookup_trait_item_of_type r name kind
        ∈ TraitReference.item_refs r
      /\ wanted name kind
           (TraitReference.lookup_trait_item_of_type r name kind))
  /\ is_error (TraitReference.lookup_trait_item_of_type r name ERROR) = true.
Proof.
  split; [|split].
  - unfold TraitReference.lookup_trait_item.
    destruct (first_named_or_none (TraitReference.item_refs r) name)
      as [(before & item & after & Hitems & Hbefore & Hitem) | Hnone].
    + assert (Hfound : TraitReference.lookup_trait_item_from
                         (TraitReference.item_refs r) name = item).
      { rewrite Hitems. now apply lookup_trait_item_from_found. }
      rewrite Hfound. intros _. split; [|exact Hitem].
      rewrite Hitems. apply elem_of_app. right. left.
    + rewrite (lookup_trait_item_from_missing _ _ Hnone). discriminate.
  - unfold TraitReference.lookup_trait_item_of_type.
    destruct (typed_lookup_from_cases (TraitReference.item_refs r) name kind)
      as [(before & item & after & Hitems & _ & Hitem & ->) | [_ ->]].
    + intros _. split; [|exact Hitem].
      rewrite Hitems. apply elem_of_app. right. left.
    + discriminate.
  - unfold TraitReference.lookup_trait_item_of_type.
    destruct (typed_lookup_from_cases (TraitReference.item_refs r) name
                ERROR)
      as [(before & item & after & _ & _ & [Hkind _] & ->) | [_ ->]].
    + now apply is_error_iff_kind.
    + reflexivity.
Qed.

End TypedLookup.

(** ** Copy assignment and printing of trait items *)

Section ItemCopies.
Context `{TyTy}.

Import TraitItemReference.

Lemma fold_left_push_back {A : Type} (pushed target : list A) :
  fold_left (fun acc a => acc ++ [a]) pushed target = target ++ pushed.
Proof.
  revert target. induction pushed as [|a pushed IH]; intros target; simpl.
  - now rewrite app_nil_r.
  - rewrite IH. now rewrite <- app_assoc.
Qed.

(** X4. Copy assignment takes every scalar member from [other], but it
    appends the substitutions of [other] to those the target already has:
    the target becomes a copy of [other] exactly when it had no inherited
    substitution before. *)
Theorem assign_appends_substitutions (this other : TraitItemReference.t) :
  identifier (assign this other) = identifier other
  /\ optional_flag (assign this other) = optional_flag other
  /\ type (assign this other) = type other
  /\ hir_trait_item (assign this other) = hir_trait_item other
  /\ locus (assign this other) = locus other
  /\ self (assign this other) = self other
  /\ inherited_substitutions (assign this other)
     = inherited_substitutions this ++ inherited_substitutions other
  /\ (assign this other = other <-> inherited_substitutions this = []).
Proof.
  repeat split; try reflexivity.
  - apply fold_left_push_back.
  - intros Hcopy. apply (f_equal inherited_substitutions) in Hcopy.
    simpl in Hcopy. rewrite fold_left_push_back in Hcopy.
    apply (app_inv_tail (inherited_substitutions other)
             (inherited_substitutions this) []). exact Hcopy.
  - intros Hnone. unfold assign. rewrite fold_left_push_back, Hnone.
    now destruct other.
Qed.

Lemma string_length_append (s t : string) :
  String.length (s +:+ t) = (String.length s + String.length t)%nat.
Proof. induction s as [|a s IH]; simpl; [|rewrite IH]; reflexivity. Qed.

Lemma append_cancel_r (s1 s2 t : string) :
  s1 +:+ t = s2 +:+ t -> s1 = s2.
Proof.
  intros Heq.
  assert (Hlen : String.length s1 = String.length s2).
  { apply (f_equal String.length) in Heq.
    rewrite !string_length_append in Heq.
    apply (Nat.add_cancel_r _ _ (String.length t)). exact Heq. }
  revert s2 Heq Hlen. induction s1 as [|a s1 IH]; intros [|b s2]; simpl;
    try discriminate; [reflexivity|].
  intros [= -> Heq] [= Hlen]. f_equal. now apply IH.
Qed.

Lemma trait_item_type_as_string_inj (a b : TraitItemType) :
  trait_item_type_as_string a = trait_item_type_as_string b -> a = b.
Proof. destruct a, b; simpl; intros Heq; congruence. Qed.

(** X5. The printed form of a trait item tells its kind and its
    identifier: two items with the same printed form have the same kind
    and the same identifier, and the four kinds print differently. *)
Theorem as_string_tells_kind_and_identifier (r1 r2 : TraitItemReference.t) :
  (as_string r1 = as_string r2 ->
   type r1 = type r2 /\ identifier r1 = identifier r2)
  /\ (trait_item_type_as_string (type r1)
      = trait_item_type_as_string (type r2) -> type r1 = type r2).
Proof.
  split; [|apply trait_item_type_as_string_inj].
  unfold as_string.
  destruct (type r1), (type r2); simpl; intros Heq;
    try discriminate; injection Heq as Heq;
    (split; [reflexivity|]);
    apply append_cancel_r in Heq; apply append_cancel_r in Heq; exact Heq.
Qed.

End ItemCopies.

(** ** The accessors and the printed form of a trait reference *)

Section ReferenceAccessors.
Context `{TyTy} `{!TraitReference.NodeMappingPrinter}.

Import TraitReference.

(** X6. On the error reference [get_name] stops on its assertion, while
    [get_locus] has no such guard and dereferences the null declaration;
    on every other reference both answer the member of the declaration. *)
Theorem accessors_on_error_reference (r : TraitReference.t) :
  (is_error r = true ->
   get_name r = Abort AssertFailed /\ get_locus r = Abort NullDeref)
  /\ (is_error r = false ->
      exists trait,
        hir_trait_ref r = Some trait
        /\ get_name r = Ok (HIR.trait_name trait)
        /\ get_locus r = Ok (HIR.trait_locus trait)).
Proof.
  unfold get_name, get_locus, is_error.
  destruct (hir_trait_ref r) as [trait|]; simpl; split;
    try discriminate; eauto.
Qed.

(** X7. [as_string] answers a string on every trait reference: it tests
    [is_error] before it asks for the name, so the assertion of [get_name]
    never fails in it; on an error reference the string is the fixed
    marker, whatever the items are. *)
Theorem as_string_never_stops (r : TraitReference.t) :
  (exists s, as_string r = Ok s)
  /\ (is_error r = true -> as_string r = Ok "<trait-ref-error-node>")
  /\ (forall trait,
        hir_trait_ref r = Some trait ->
        as_string r
        = Ok (((((("HIR Trait: " +:+ HIR.trait_name trait) +:+ "->")
                  +:+ mappings_as_string (HIR.trait_mappings trait))
                 +:+ " [") +:+ items_as_string (item_refs r)) +:+ "]")).
Proof.
  unfold as_string, get_name, is_error.
  destruct (hir_trait_ref r) as [trait|]; simpl.
  - split; [eauto|]. split; [discriminate|]. now intros ? [= <-].
  - split; [eauto|]. split; [reflexivity | discriminate].
Qed.

End ReferenceAccessors.

(** ** More on the bound scan *)

Section BoundScanMore.
Context `{TraitResolver}.

Import TypeBoundsProbe.

Lemma block_paths_cases (p : TypeBoundsProbe.t) (impl : HIR.ImplBlock) :
  (exists path self_ty,
      HIR.get_trait_ref impl = Some path
      /\ lookup_type (context (base p)) (self_type_id impl) = Some self_ty
      /\ can_eq (receiver p) self_ty false = true
      /\ block_paths p impl = [path])
  \/ block_paths p impl = [].
Proof.
  unfold block_paths, scan_block, self_type_id.
  destruct (HIR.get_trait_ref impl) as [path|]; [|now right].
  destruct (lookup_type _ _) as [self_ty|]; [|now right].
  destruct (can_eq _ _ _) eqn:Hcompat; simpl; [|now right].
  left. exists path, self_ty. auto.
Qed.

Lemma block_paths_same_base (p q : TypeBoundsProbe.t)
    (impl : HIR.ImplBlock) :
  context (base p) = context (base q) -> receiver p = receiver q ->
  block_paths p impl = block_paths q impl.
Proof.
  intros Hcontext Hreceiver. unfold block_paths, scan_block.
  now rewrite Hcontext, Hreceiver.
Qed.

(** X8. Every trait reference [ScanBounds R] returns comes from a block of
    the registry that implements a trait, whose self type is in the type
    cache and is one [R] is compatible with, and is what the block's trait
    path resolves to. *)
Theorem scan_bounds_sound (tc : TypeCheckBase) (R : BaseType)
    (tr : TraitReference.t) :
  tr ∈ Probe tc R ->
  exists id impl path self_ty,
    (id, impl) ∈ hirImplBlockMappings (mappings tc)
    /\ HIR.get_trait_ref impl = Some path
    /\ lookup_type (context tc) (self_type_id impl) = Some self_ty
    /\ can_eq R self_ty false = true
    /\ Resolve path = tr.
Proof.
  rewrite Probe_unfold. intros Hin.
  apply list_elem_of_In, filter_In in Hin. destruct Hin as [Hin _].
  apply in_map_iff in Hin. destruct Hin as (path & Hresolve & Hin).
  apply in_flat_map in Hin. destruct Hin as ([id impl] & Hblock & Hpath).
  simpl in Hpath.
  destruct (block_paths_cases
              {| base := tc; receiver := R; trait_references := [] |} impl)
    as [(path' & self_ty & Htrait & Hself & Hcompat & Hpaths) | Hnone].
  - rewrite Hpaths in Hpath. destruct Hpath as [<-|[]].
    exists id, impl, path', self_ty. apply list_elem_of_In in Hblock. auto.
  - rewrite Hnone in Hpath. destruct Hpath.
Qed.

(** X9. The scan follows the order of the registry and removes no
    duplicate: over an enumeration of blocks in two parts it returns what
    it returns over the first part followed by what it returns over the
    second, and it returns at most one reference per block. *)
Theorem scan_bounds_follows_registry (tc : TypeCheckBase) (R : BaseType)
    (first second : list (HirId * HIR.ImplBlock)) :
  Probe (with_blocks tc (first ++ second)) R
  = Probe (with_blocks tc first) R ++ Probe (with_blocks tc second) R
  /\ length (Probe tc R) <= length (hirImplBlockMappings (mappings tc)).
Proof.
  split.
  - rewrite !Probe_unfold. simpl.
    rewrite flat_map_app, map_app, List.filter_app.
    f_equal; do 2 f_equal; apply flat_map_ext; intros [id impl];
      now apply block_paths_same_base.
  - rewrite Probe_unfold.
    etransitivity; [apply List.filter_length_le|].
    rewrite length_map.
    induction (hirImplBlockMappings (mappings tc)) as [|[id impl] blocks IH];
      simpl; [reflexivity|].
    rewrite length_app.
    destruct (block_paths_cases
                {| base := tc; receiver := R; trait_references := [] |} impl)
      as [(path & self_ty & _ & _ & _ & ->) | ->]; simpl; lia.
Qed.

(** X10. [scan] keeps the receiver, the context and the references the
    probe already holds, and appends what the receiver satisfies: scanning
    a probe a second time appends the same references again. *)
Theorem scan_appends (p : TypeBoundsProbe.t) :
  base (scan p) = base p
  /\ receiver (scan p) = receiver p
  /\ trait_references (scan p)
     = trait_references p ++ Probe (base p) (receiver p)
  /\ trait_references (scan (scan p))
     = trait_references p ++ Probe (base p) (receiver p)
         ++ Probe (base p) (receiver p).
Proof.
  assert (Hscan : forall q,
             trait_references (scan q)
             = trait_references q ++ Probe (base q) (receiver q)).
  { intros q. rewrite Probe_unfold. unfold scan, iterate_impl_blocks.
    simpl. rewrite resolve_paths_filter, iterate_blocks_scan. simpl.
    do 3 f_equal; apply flat_map_ext; intros [id impl];
      now apply block_paths_same_base. }
  split; [reflexivity|]. split; [reflexivity|]. split; [apply Hscan|].
  rewrite (Hscan (scan p)), (Hscan p). simpl. now rewrite <- app_assoc.
Qed.

End BoundScanMore.

(** ** More on the probe *)

Section ProbeMore.
Context `{TyTy} `{!TraitResolver} `{!TraitItemReference.Builders}.

Import PathProbeCandidate PathProbeType.

Lemma process_trait_for_candidates_exact (tr : TraitReference.t)
    (p p' : PathProbeType.t) :
  process_trait_for_candidates tr p = Ok p' ->
  same_probe p p'
  /\ trait_ready (search p) tr
  /\ candidates p' = candidates p ++ trait_entry_candidates (search p) tr.
Proof.
  unfold process_trait_for_candidates, trait_entry_candidates, trait_ready.
  cbv zeta.
  destruct (TraitItemReference.is_error _) eqn:Herr.
  { intros [= <-]. rewrite app_nil_r.
    split; [apply same_probe_refl | split; [discriminate | reflexivity]]. }
  destruct (TraitItemReference.is_optional _) eqn:Hopt; simpl.
  2:{ intros [= <-]. rewrite app_nil_r.
      split; [apply same_probe_refl | split; [discriminate | reflexivity]]. }
  destruct (candidate_type_of_trait_item _) as [ct|f]; simpl; [|discriminate].
  destruct (TraitItemReference.get_tyty _) as [found_ty|f] eqn:Hty; simpl;
    [|discriminate].
  intros [= <-]. simpl.
  split; [now repeat split|]. split; [|reflexivity].
  intros _ _.
  destruct (TraitItemReference.hir_trait_item _) as [decl|] eqn:Hdecl;
    [eauto|].
  rewrite (get_tyty_null _ Hdecl) in Hty. discriminate.
Qed.

Lemma process_traits_for_candidates_exact (traits : list TraitReference.t)
    (p p' : PathProbeType.t) :
  process_traits_for_candidates traits p = Ok p' ->
  same_probe p p'
  /\ Forall (trait_ready (search p)) traits
  /\ candidates p' =
     candidates p ++ flat_map (trait_entry_candidates (search p)) traits.
Proof.
  revert p. induction traits as [|tr traits IH]; intros p; simpl.
  - intros [= <-]. rewrite app_nil_r.
    split; [apply same_probe_refl | split; [constructor | reflexivity]].
  - destruct (process_trait_for_candidates tr p) as [q|f] eqn:Hstep; simpl;
      [|discriminate].
    intros Hrest. apply process_trait_for_candidates_exact in Hstep.
    destruct Hstep as (Hsame & Hready & Hcands).
    apply IH in Hrest. destruct Hrest as (Hsame' & Hreadys & Hcands').
    destruct Hsame as (Hb & Hr & Hs). rewrite Hs in Hreadys, Hcands'.
    split; [|split].
    + eapply same_probe_trans; [|exact Hsame']. now repeat split.
    + constructor; assumption.
    + rewrite Hcands', Hcands. now rewrite <- app_assoc.
Qed.

Lemma Probe_exact (tc : TypeCheckBase) (R : BaseType)
    (name : HIR.PathIdentSegment) (cs : list PathProbeCandidate.t) :
  Probe tc R name = Ok cs ->
  Forall (entry_ready tc R name) (hirImplItemMappings (mappings tc))
  /\ Forall (trait_ready name) (TypeBoundsProbe.Probe tc R)
  /\ cs = inherent_candidates tc R name ++ trait_default_candidates tc R name.
Proof.
  unfold Probe, process_impl_items_for_candidates, iterate_impl_items.
  simpl.
  destruct (iterate_items _ _ _) as [p|f] eqn:Hitems; simpl; [|discriminate].
  apply iterate_items_ok in Hitems. simpl in Hitems.
  destruct Hitems as ((Hb & Hr & Hs) & Hready & Hcands).
  destruct (process_traits_for_candidates _ p) as [p'|f] eqn:Htraits;
    simpl; [|discriminate].
  intros [= <-].
  apply process_traits_for_candidates_exact in Htraits.
  destruct Htraits as (_ & Htready & Hcands').
  rewrite Hs in Htready, Hcands'.
  split; [exact Hready|]. split; [exact Htready|].
  rewrite Hcands', Hcands. reflexivity.
Qed.

(** X11. The sequence [Probe] returns is the inherent candidates, in the
    order of the registry's entries, followed by the trait-default
    candidates, in the order of the satisfied traits, one at most per
    trait. *)
Theorem probe_returns_both_passes_in_order (tc : TypeCheckBase)
    (R : BaseType) (name : HIR.PathIdentSegment)
    (cs : list PathProbeCandidate.t) :
  Probe tc R name = Ok cs ->
  cs = inherent_candidates tc R name ++ trait_default_candidates tc R name
  /\ Forall (fun c => is_impl_candidate c = true)
       (inherent_candidates tc R name)
  /\ Forall (fun c => is_trait_candidate c = true)
       (trait_default_candidates tc R name).
Proof.
  intros Hprobe. pose proof (Probe_ok _ _ _ _ Hprobe) as (_ & added & Hcs & Hadded).
  apply Probe_exact in Hprobe. destruct Hprobe as (_ & _ & Hexact).
  split; [exact Hexact|]. split.
  - eapply Forall_impl; [apply inherent_candidates_are_impl|]. now intros c [].
  - rewrite Hexact in Hcs. apply app_inv_head in Hcs. rewrite Hcs.
    eapply Forall_impl; [exact Hadded|]. now intros c [].
Qed.

(** X12. [Probe] returns a sequence exactly when the cache holds what the
    inherent pass asserts of every registry entry and every satisfied trait
    has the declaration of the optional item it answers; in every other
    case it stops on a failed assertion. *)
Theorem probe_returns_iff_ready (tc : TypeCheckBase) (R : BaseType)
    (name : HIR.PathIdentSegment) :
  ((exists cs, Probe tc R name = Ok cs) <->
   Forall (entry_ready tc R name) (hirImplItemMappings (mappings tc))
   /\ Forall (trait_ready name) (TypeBoundsProbe.Probe tc R))
  /\ (Probe tc R name = Abort AssertFailed <->
      ~ (Forall (entry_ready tc R name) (hirImplItemMappings (mappings tc))
         /\ Forall (trait_ready name) (TypeBoundsProbe.Probe tc R))).
Proof.
  assert (Hiff : (exists cs, Probe tc R name = Ok cs) <->
                 Forall (entry_ready tc R name)
                   (hirImplItemMappings (mappings tc))
                 /\ Forall (trait_ready name) (TypeBoundsProbe.Probe tc R)).
  { split.
    - intros [cs Hprobe]. apply Probe_exact in Hprobe. tauto.
    - intros [Hentries Htraits]. now apply Probe_total. }
  split; [exact Hiff|]. split.
  - intros Habort Hready. apply Hiff in Hready. destruct Hready as [cs Hcs].
    congruence.
  - intros Hnot. destruct (Probe tc R name) as [cs|f] eqn:Hprobe.
    + exfalso. apply Hnot, Hiff. eauto.
    + now rewrite (Probe_abort _ _ _ _ Hprobe).
Qed.

End ProbeMore.

(** ** What the candidates of a probe carry *)

Section ProbeCandidates.
Context `{TyTy} `{!TraitResolver} `{!TraitItemReference.Builders}.

Import PathProbeCandidate PathProbeType.

Lemma inherent_entry_candidates_cases (tc : TypeCheckBase) (R : BaseType)
    (name : HIR.PathIdentSegment)
    (entry : HirId * HIR.ImplItem * HIR.ImplBlock) :
  inherent_entry_candidates tc R name entry = []
  \/ exists entry_ty,
      lookup_type (context tc)
        (HIR.get_hirid (HIR.item_mappings (item_decl (snd (fst entry)))))
      = Some entry_ty
      /\ inherent_entry_candidates tc R name entry
         = [ {| type := impl_candidate_type (snd (fst entry));
                ty := entry_ty;
                item := impl {| impl_item := snd (fst entry);
                                parent := Some (snd entry) |} |} ].
Proof.
  destruct entry as [[id it] owner].
  unfold inherent_entry_candidates, inherent_candidate. simpl.
  destruct (compatible_block _ _ _ && named _ _); [|now left].
  destruct (lookup_type _ _) as [entry_ty|]; [|now left].
  right. eauto.
Qed.

Lemma trait_entry_candidates_cases (name : HIR.PathIdentSegment)
    (tr : TraitReference.t) :
  let found := TraitReference.lookup_trait_item tr (HIR.as_string name) in
  trait_entry_candidates name tr = []
  \/ exists ct found_ty,
      candidate_type_of_trait_item
        (TraitItemReference.get_trait_item_type found) = Ok ct
      /\ TraitItemReference.get_tyty found = Ok found_ty
      /\ trait_entry_candidates name tr
         = [ {| type := ct; ty := found_ty;
                item := trait {| trait_ref := tr; item_ref := found |} |} ].
Proof.
  intros found. unfold trait_entry_candidates. fold found.
  destruct (TraitItemReference.is_error found); [now left|].
  destruct (negb (TraitItemReference.is_optional found)); [now left|].
  destruct (candidate_type_of_trait_item _) as [ct|]; [|now left].
  destruct (TraitItemReference.get_tyty found) as [found_ty|]; [|now left].
  right. eauto.
Qed.

Lemma candidate_type_of_trait_item_is_trait
    (kind : TraitItemReference.TraitItemType) (ct : CandidateType) :
  candidate_type_of_trait_item kind = Ok ct ->
  ct = TRAIT_FUNC \/ ct = TRAIT_ITEM_CONST \/ ct = TRAIT_TYPE_ALIAS.
Proof. destruct kind; simpl; intros [= <-]; auto. Qed.

Lemma candidate_type_names_kind
    (kind : TraitItemReference.TraitItemType) (ct : CandidateType) :
  candidate_type_of_trait_item kind = Ok ct -> tag_names_kind ct kind = true.
Proof.
  destruct kind; unfold candidate_type_of_trait_item, gcc_unreachable;
    intros Hct; try discriminate; now injection Hct as <-.
Qed.

Lemma expected_candidates_sound (tc : TypeCheckBase) (R : BaseType)
    (name : HIR.PathIdentSegment) :
  Forall (sound_candidate tc)
    (inherent_candidates tc R name ++ trait_default_candidates tc R name).
Proof.
  apply Forall_app. split; apply Forall_forall; intros c Hin;
    apply list_elem_of_In, in_flat_map in Hin.
  - destruct Hin as (entry & _ & Hin).
    destruct (inherent_entry_candidates_cases tc R name entry)
      as [Hnone | (entry_ty & Hty & Hone)].
    + rewrite Hnone in Hin. destruct Hin.
    + rewrite Hone in Hin. destruct Hin as [<-|[]].
      repeat split; simpl; [|exact Hty].
      unfold reads_constructed_member, is_impl_candidate. simpl.
      now destruct (snd (fst entry)).
  - destruct Hin as (tr & _ & Hin).
    destruct (trait_entry_candidates_cases name tr)
      as [Hnone | (ct & found_ty & Hct & Hty & Hone)].
    + rewrite Hnone in Hin. destruct Hin.
    + rewrite Hone in Hin. destruct Hin as [<-|[]].
      repeat split; simpl; [| | exact Hty].
      { now apply candidate_type_names_kind. }
      unfold reads_constructed_member, is_trait_candidate. simpl.
      apply candidate_type_of_trait_item_is_trait in Hct.
      now destruct Hct as [->|[->| ->]].
Qed.

(** X13. In every sequence [Probe] returns, the discriminant of each
    candidate agrees with the member of the union it carries (the class of
    the item, or the kind of the trait item), and the type it carries is the
    cached type of the item for an inherent candidate and the type
    [get_tyty] computes for the trait item of a trait candidate. *)
Theorem probe_candidates_are_consistent (tc : TypeCheckBase) (R : BaseType)
    (name : HIR.PathIdentSegment) (cs : list PathProbeCandidate.t) :
  Probe tc R name = Ok cs ->
  Forall (fun c => well_tagged c /\ reads_constructed_member c = true
                   /\ carries_its_type tc c) cs.
Proof.
  intros Hprobe. apply Probe_exact in Hprobe.
  destruct Hprobe as (_ & _ & ->). apply expected_candidates_sound.
Qed.

Lemma length_flat_map_le {A B : Type} (f : A -> list B) (l : list A) :
  (forall a, length (f a) <= 1) -> length (flat_map f l) <= length l.
Proof.
  intros Hone. induction l as [|a l IH]; simpl; [reflexivity|].
  rewrite length_app. specialize (Hone a). lia.
Qed.

(** X14. [Probe] returns at most one candidate per registry entry and one
    per satisfied trait, so no more candidates than the registry has
    entries and blocks. *)
Theorem probe_length_bound (tc : TypeCheckBase) (R : BaseType)
    (name : HIR.PathIdentSegment) (cs : list PathProbeCandidate.t) :
  Probe tc R name = Ok cs ->
  length cs <= length (hirImplItemMappings (mappings tc))
               + length (TypeBoundsProbe.Probe tc R)
  /\ length cs <= length (hirImplItemMappings (mappings tc))
                  + length (hirImplBlockMappings (mappings tc)).
Proof.
  intros Hprobe. apply Probe_exact in Hprobe.
  destruct Hprobe as (_ & _ & ->). rewrite length_app.
  assert (Hinherent : length (inherent_candidates tc R name)
                      <= length (hirImplItemMappings (mappings tc))).
  { apply length_flat_map_le. intros entry.
    destruct (inherent_entry_candidates_cases tc R name entry)
      as [-> | (? & _ & ->)]; simpl; lia. }
  assert (Htraits : length (trait_default_candidates tc R name)
                    <= length (TypeBoundsProbe.Probe tc R)).
  { apply length_flat_map_le. intros tr.
    destruct (trait_entry_candidates_cases name tr)
      as [-> | (? & ? & _ & _ & ->)]; simpl; lia. }
  assert (Hblocks : length (TypeBoundsProbe.Probe tc R)
                    <= length (hirImplBlockMappings (mappings tc))).
  { rewrite Probe_unfold.
    etransitivity; [apply List.filter_length_le|].
    rewrite length_map. apply length_flat_map_le. intros [id owner].
    unfold TypeBoundsProbe.block_paths, TypeBoundsProbe.scan_block. simpl.
    destruct (HIR.get_trait_ref owner); simpl; [|lia].
    destruct (lookup_type _ _); simpl; [|lia].
    destruct (can_eq _ _ _); simpl; lia. }
  lia.
Qed.

(** X15. When every registry entry has an owning block with a cached self
    type and is either in a block the receiver is not compatible with or
    under another name, and every satisfied trait answers the name with an
    error item or with an item that is not optional, [Probe] returns the
    empty sequence. *)
Theorem probe_finds_nothing (tc : TypeCheckBase) (R : BaseType)
    (name : HIR.PathIdentSegment) :
  Forall (fun entry =>
            is_Some (lookup_type (context tc) (self_type_id (snd entry)))
            /\ compatible_block tc R (snd entry)
               && named name (snd (fst entry)) = false)
    (hirImplItemMappings (mappings tc)) ->
  Forall (fun tr =>
            TraitItemReference.is_error
              (TraitReference.lookup_trait_item tr (HIR.as_string name))
            = true
            \/ TraitItemReference.is_optional
                 (TraitReference.lookup_trait_item tr (HIR.as_string name))
               = false)
    (TypeBoundsProbe.Probe tc R) ->
  Probe tc R name = Ok [].
Proof.
  intros Hentries Htraits.
  destruct (Probe_total tc R name) as [cs Hprobe].
  - eapply Forall_impl; [exact Hentries|].
    intros [[id it] owner] [Hself Hno]. simpl in Hself, Hno.
    split; [exact Hself|]. rewrite Hno. discriminate.
  - eapply Forall_impl; [exact Htraits|].
    intros tr [Herr|Hopt] Herr' Hopt'; congruence.
  - rewrite Hprobe. f_equal.
    apply Probe_exact in Hprobe. destruct Hprobe as (_ & _ & ->).
    unfold inherent_candidates, trait_default_candidates.
    assert (Hnone : forall {A B : Type} (f : A -> list B) (l : list A),
               Forall (fun a => f a = []) l -> flat_map f l = []).
    { intros A B f l Hall. induction Hall as [|a l Ha _ IH]; simpl;
        [reflexivity | now rewrite Ha, IH]. }
    rewrite !Hnone; [reflexivity| |].
    + eapply Forall_impl; [exact Htraits|].
      intros tr Hcase. unfold trait_entry_candidates.
      destruct Hcase as [-> | ->]; [reflexivity|].
      now destruct (TraitItemReference.is_error _).
    + eapply Forall_impl; [exact Hentries|].
      intros [[id it] owner] [_ Hno]. simpl in Hno.
      unfold inherent_entry_candidates. now rewrite Hno.
Qed.

End ProbeCandidates.

(** ** The report of several candidates *)

Section Report.
Context `{TyTy} `{!TraitResolver} `{!TraitItemReference.Builders}.

Import PathProbeCandidate ReportMultipleCandidateError.

Lemma report_candidate_defined (c : PathProbeCandidate.t)
    (r : RichLocation) :
  reads_constructed_member c = true ->
  report_candidate c r = Some (add_range r (definition_locus c)).
Proof.
  unfold reads_constructed_member, report_candidate, definition_locus,
    is_impl_candidate, is_trait_candidate.
  destruct (item c) as [i|t], (type c); simpl; try discriminate;
    intros _; try reflexivity; now destruct (impl_item i).
Qed.

Lemma report_candidate_undefined (c : PathProbeCandidate.t)
    (r : RichLocation) :
  reads_constructed_member c = false -> report_candidate c r = None.
Proof.
  unfold reads_constructed_member, report_candidate,
    is_impl_candidate, is_trait_candidate.
  destruct (item c) as [i|t], (type c); simpl; try discriminate;
    reflexivity.
Qed.

Lemma report_candidates_defined (cs : list PathProbeCandidate.t)
    (r : RichLocation) :
  Forall (fun c => reads_constructed_member c = true) cs ->
  report_candidates cs r
  = Some {| anchor := anchor r;
            ranges := ranges r ++ map definition_locus cs |}.
Proof.
  intros Hall. revert r. induction Hall as [|c cs Hc _ IH]; intros r; simpl.
  - rewrite app_nil_r. now destruct r.
  - rewrite (report_candidate_defined c r Hc). simpl. rewrite IH. simpl.
    now rewrite <- app_assoc.
Qed.

Lemma report_candidates_some (cs : list PathProbeCandidate.t)
    (r r' : RichLocation) :
  report_candidates cs r = Some r' ->
  Forall (fun c => reads_constructed_member c = true) cs.
Proof.
  revert r. induction cs as [|c cs IH]; intros r; simpl; [constructor|].
  destruct (reads_constructed_member c) eqn:Hc.
  - rewrite (report_candidate_defined c r Hc). simpl. intros Hrest.
    constructor; [exact Hc | eapply IH, Hrest].
  - rewrite (report_candidate_undefined c r Hc). discriminate.
Qed.

(** X16. [Report] reads the member of the union the discriminant selects.
    It has a defined result exactly when, for every candidate, that is the
    member that was constructed; it then emits one diagnostic, anchored at
    the use site, whose ranges are the definition sites of the candidates,
    one per candidate and in their order, with a message that ends in the
    queried name.  It does so for any number of candidates, none and one
    among them. *)
Theorem report_covers_every_candidate (cs : list PathProbeCandidate.t)
    (query : HIR.PathIdentSegment) (query_locus : Location) :
  ((exists d, Report cs query query_locus = Some d) <->
   Forall (fun c => reads_constructed_member c = true) cs)
  /\ (forall d,
        Report cs query query_locus = Some d ->
        anchor (where_ d) = query_locus
        /\ ranges (where_ d) = map definition_locus cs
        /\ message d
           = "multiple applicable items in scope for: "
               +:+ HIR.as_string query).
Proof.
  unfold Report. split; [split|].
  - intros [d Hd].
    destruct (report_candidates cs _) as [r|] eqn:Hr; [|discriminate].
    eapply report_candidates_some, Hr.
  - intros Hall. rewrite (report_candidates_defined cs _ Hall). simpl.
    eauto.
  - intros d Hd.
    destruct (report_candidates cs _) as [r|] eqn:Hr; [|discriminate].
    pose proof (report_candidates_some _ _ _ Hr) as Hall.
    rewrite (report_candidates_defined cs _ Hall) in Hr.
    injection Hr as <-. simpl in Hd. injection Hd as <-. auto.
Qed.

(** X17. Whatever [Probe] returns can be reported: on a sequence [Probe]
    returned, [Report] reads only constructed members and emits a
    diagnostic with as many ranges as there are candidates, the range of a
    candidate being the location of its item or of its trait item. *)
Theorem probe_result_can_be_reported (tc : TypeCheckBase) (R : BaseType)
    (name : HIR.PathIdentSegment) (cs : list PathProbeCandidate.t)
    (query_locus : Location) :
  PathProbeType.Probe tc R name = Ok cs ->
  exists d,
    Report cs name query_locus = Some d
    /\ anchor (where_ d) = query_locus
    /\ ranges (where_ d) = map definition_locus cs
    /\ length (ranges (where_ d)) = length cs.
Proof.
  intros Hprobe. apply Probe_exact in Hprobe.
  destruct Hprobe as (_ & _ & ->).
  assert (Hall : Forall (fun c => reads_constructed_member c = true)
                   (inherent_candidates tc R name
                    ++ trait_default_candidates tc R name)).
  { eapply Forall_impl; [apply expected_candidates_sound|].
    intros c (_ & Hreads & _). exact Hreads. }
  unfold Report. rewrite (report_candidates_defined _ _ Hall). simpl.
  eexists. split; [reflexivity|]. simpl.
  split; [reflexivity|]. split; [reflexivity|]. now rewrite length_map.
Qed.

End Report.

(** ** Two calls of the probe *)

Section TwoCallsOfTheProbe.
Context `{T : TyTy}.

Import PathProbeCandidate.

Lemma flat_map_ext_Forall {A B : Type} (f g : A -> list B) (l : list A) :
  Forall (fun a => f a = g a) l -> flat_map f l = flat_map g l.
Proof.
  induction 1 as [|a l Ha _ IH]; simpl; [reflexivity | now rewrite Ha, IH].
Qed.

Lemma same_reads_sym (tc1 tc2 : TypeCheckBase) :
  same_reads tc1 tc2 -> same_reads tc2 tc1.
Proof.
  intros (Hitems & Hblocks & Hentries & Hselfs).
  split; [now symmetry|]. split; [now symmetry|].
  rewrite <- Hitems, <- Hblocks. split.
  - eapply Forall_impl; [exact Hentries|]. now intros entry [-> ->].
  - eapply Forall_impl; [exact Hselfs|]. now intros entry ->.
Qed.

Lemma same_resolutions_sym (resolver1 resolver2 : TraitResolver)
    (tc1 tc2 : TypeCheckBase) :
  same_reads tc1 tc2 ->
  same_resolutions resolver1 resolver2 tc1 ->
  same_resolutions resolver2 resolver1 tc2.
Proof.
  intros (_ & Hblocks & _) Hsame. unfold same_resolutions.
  rewrite <- Hblocks. eapply Forall_impl; [exact Hsame|].
  intros entry Hentry path Hpath. symmetry. now apply Hentry.
Qed.

Lemma same_builders_sym (builders1 builders2 : TraitItemReference.Builders) :
  same_builders builders1 builders2 -> same_builders builders2 builders1.
Proof.
  intros Hsame r decl. destruct (Hsame r decl) as (-> & -> & ->). auto.
Qed.

(** The inherent pass reads the cache at the self type of the owning block
    and at the item, nowhere else. *)
Lemma inherent_candidates_same_reads (tc1 tc2 : TypeCheckBase)
    (R : BaseType) (name : HIR.PathIdentSegment) :
  same_reads tc1 tc2 ->
  inherent_candidates tc1 R name = inherent_candidates tc2 R name.
Proof.
  intros (Hitems & _ & Hentries & _). unfold inherent_candidates.
  rewrite <- Hitems. apply flat_map_ext_Forall.
  eapply Forall_impl; [exact Hentries|].
  intros [[id it] owner] [Hself Hitem]. simpl in Hself, Hitem.
  unfold inherent_entry_candidates, inherent_candidate, compatible_block.
  now rewrite Hself, Hitem.
Qed.

Lemma entry_ready_same_reads (tc1 tc2 : TypeCheckBase) (R : BaseType)
    (name : HIR.PathIdentSegment) :
  same_reads tc1 tc2 ->
  Forall (entry_ready tc1 R name) (hirImplItemMappings (mappings tc1)) ->
  Forall (entry_ready tc2 R name) (hirImplItemMappings (mappings tc2)).
Proof.
  intros (Hitems & _ & Hentries & _) Hready. rewrite <- Hitems.
  rewrite Forall_forall in *. intros [[id it] owner] Hin.
  specialize (Hentries _ Hin). specialize (Hready _ Hin).
  destruct Hentries as [Hself Hitem]. simpl in Hself, Hitem.
  unfold entry_ready, compatible_block in *.
  now rewrite <- Hself, <- Hitem.
Qed.

(** The scan reads the cache at the self type of each block and asks the
    resolver for the trait paths of the blocks only. *)
Lemma resolved_paths_same_reads (resolver1 resolver2 : TraitResolver)
    (tc1 tc2 : TypeCheckBase) (R : BaseType)
    (blocks : list (HirId * HIR.ImplBlock)) :
  Forall (fun entry =>
            lookup_type (context tc1) (self_type_id (snd entry))
            = lookup_type (context tc2) (self_type_id (snd entry))) blocks ->
  Forall (fun entry =>
            forall path,
              HIR.get_trait_ref (snd entry) = Some path ->
              @Resolve T resolver1 path = @Resolve T resolver2 path) blocks ->
  List.filter (fun r => negb (TraitReference.is_error r))
    (map (@Resolve T resolver1)
       (flat_map
          (fun entry =>
             @TypeBoundsProbe.block_paths T
               {| TypeBoundsProbe.base := tc1;
                  TypeBoundsProbe.receiver := R;
                  TypeBoundsProbe.trait_references := [] |} (snd entry))
          blocks))
  = List.filter (fun r => negb (TraitReference.is_error r))
      (map (@Resolve T resolver2)
         (flat_map
            (fun entry =>
               @TypeBoundsProbe.block_paths T
                 {| TypeBoundsProbe.base := tc2;
                    TypeBoundsProbe.receiver := R;
                    TypeBoundsProbe.trait_references := [] |} (snd entry))
            blocks)).
Proof.
  intros Hselfs Hresolve.
  induction blocks as [|[id impl] blocks IH]; [reflexivity|].
  inversion Hselfs as [|? ? Hself Hselfs']; subst.
  inversion Hresolve as [|? ? Hpath Hresolve']; subst.
  simpl in Hself, Hpath. simpl.
  rewrite !map_app, !List.filter_app. rewrite (IH Hselfs' Hresolve').
  f_equal.
  unfold TypeBoundsProbe.block_paths, TypeBoundsProbe.scan_block. simpl.
  unfold self_type_id in Hself. rewrite <- Hself.
  destruct (HIR.get_trait_ref impl) as [path|]; [|reflexivity].
  destruct (lookup_type _ _) as [self_ty|]; [|reflexivity].
  destruct (can_eq R self_ty false); simpl; [|reflexivity].
  now rewrite (Hpath path eq_refl).
Qed.

Lemma scan_same_reads (resolver1 resolver2 : TraitResolver)
    (tc1 tc2 : TypeCheckBase) (R : BaseType) :
  same_reads tc1 tc2 ->
  same_resolutions resolver1 resolver2 tc1 ->
  @TypeBoundsProbe.Probe T resolver1 tc1 R
  = @TypeBoundsProbe.Probe T resolver2 tc2 R.
Proof.
  intros (_ & Hblocks & _ & Hselfs) Hresolve.
  rewrite (@Probe_unfold T resolver1), (@Probe_unfold T resolver2).
  rewrite <- Hblocks. now apply resolved_paths_same_reads.
Qed.

(** Whether [get_tyty] answers does not depend on the builders. *)
Lemma get_tyty_answers_together
    (builders1 builders2 : TraitItemReference.Builders)
    (r : TraitItemReference.t) :
  (exists ty1 ty2,
      @TraitItemReference.get_tyty T builders1 r = Ok ty1
      /\ @TraitItemReference.get_tyty T builders2 r = Ok ty2
      /\ (same_builders builders1 builders2 -> ty1 = ty2))
  \/ (@TraitItemReference.get_tyty T builders1 r = Abort AssertFailed
      /\ @TraitItemReference.get_tyty T builders2 r = Abort AssertFailed).
Proof.
  destruct (TraitItemReference.hir_trait_item r) as [decl|] eqn:Hdecl.
  - left.
    rewrite (@get_tyty_declared T builders1 r decl Hdecl),
      (@get_tyty_declared T builders2 r decl Hdecl).
    do 2 eexists. split; [reflexivity|]. split; [reflexivity|].
    intros Hsame. destruct (Hsame r decl) as (Halias & Hconst & Hfn).
    destruct (TraitItemReference.type r); congruence.
  - right. split; now apply get_tyty_null.
Qed.

Lemma trait_entry_candidates_two_builders
    (builders1 builders2 : TraitItemReference.Builders)
    (name : HIR.PathIdentSegment) (tr : TraitReference.t) :
  map candidate_shape (@trait_entry_candidates T builders1 name tr)
  = map candidate_shape (@trait_entry_candidates T builders2 name tr)
  /\ (same_builders builders1 builders2 ->
      @trait_entry_candidates T builders1 name tr
      = @trait_entry_candidates T builders2 name tr).
Proof.
  unfold trait_entry_candidates. cbv zeta.
  destruct (TraitItemReference.is_error _); [auto|].
  destruct (negb (TraitItemReference.is_optional _)); [auto|].
  destruct (PathProbeType.candidate_type_of_trait_item _) as [ct|f];
    [|auto].
  destruct (get_tyty_answers_together builders1 builders2
              (TraitReference.lookup_trait_item tr (HIR.as_string name)))
    as [(ty1 & ty2 & -> & -> & Hty) | [-> ->]]; [|auto].
  split; [reflexivity|]. intros Hsame. now rewrite (Hty Hsame).
Qed.

Lemma trait_default_candidates_two_calls
    (resolver1 resolver2 : TraitResolver)
    (builders1 builders2 : TraitItemReference.Builders)
    (tc1 tc2 : TypeCheckBase) (R : BaseType) (name : HIR.PathIdentSegment) :
  same_reads tc1 tc2 ->
  same_resolutions resolver1 resolver2 tc1 ->
  map candidate_shape
    (@trait_default_candidates T resolver1 builders1 tc1 R name)
  = map candidate_shape
      (@trait_default_candidates T resolver2 builders2 tc2 R name)
  /\ (same_builders builders1 builders2 ->
      @trait_default_candidates T resolver1 builders1 tc1 R name
      = @trait_default_candidates T resolver2 builders2 tc2 R name).
Proof.
  intros Hreads Hresolve. unfold trait_default_candidates.
  rewrite (scan_same_reads resolver1 resolver2 tc1 tc2 R Hreads Hresolve).
  induction (@TypeBoundsProbe.Probe T resolver2 tc2 R) as [|tr traits IH];
    simpl; [auto|].
  destruct IH as [IHshape IHsame].
  destruct (trait_entry_candidates_two_builders builders1 builders2 name tr)
    as [Hshape Hsame].
  split.
  - rewrite !map_app. now rewrite Hshape, IHshape.
  - intros Hbuilders. now rewrite (Hsame Hbuilders), (IHsame Hbuilders).
Qed.

(** What the first call returns, the second returns too, up to the types
    the builders compute. *)
Lemma Probe_second_call (resolver1 resolver2 : TraitResolver)
    (builders1 builders2 : TraitItemReference.Builders)
    (tc1 tc2 : TypeCheckBase) (R : BaseType) (name : HIR.PathIdentSegment)
    (cs1 : list PathProbeCandidate.t) :
  same_reads tc1 tc2 ->
  same_resolutions resolver1 resolver2 tc1 ->
  @PathProbeType.Probe T resolver1 builders1 tc1 R name = Ok cs1 ->
  exists cs2,
    @PathProbeType.Probe T resolver2 builders2 tc2 R name = Ok cs2
    /\ map candidate_shape cs1 = map candidate_shape cs2
    /\ (same_builders builders1 builders2 -> cs1 = cs2).
Proof.
  intros Hreads Hresolve Hfirst.
  apply (@Probe_exact T resolver1 builders1) in Hfirst.
  destruct Hfirst as (Hentries & Htraits & ->).
  destruct (@Probe_total T resolver2 builders2 tc2 R name) as [cs2 Hsecond].
  - now apply (entry_ready_same_reads tc1 tc2).
  - now rewrite <- (scan_same_reads resolver1 resolver2 tc1 tc2 R).
  - exists cs2. split; [exact Hsecond|].
    apply (@Probe_exact T resolver2 builders2) in Hsecond.
    destruct Hsecond as (_ & _ & ->).
    destruct (trait_default_candidates_two_calls resolver1 resolver2
                builders1 builders2 tc1 tc2 R name Hreads Hresolve)
      as [Hshape Hsame].
    rewrite (inherent_candidates_same_reads tc1 tc2 R name Hreads).
    split.
    + rewrite !map_app. now rewrite Hshape.
    + intros Hbuilders. now rewrite (Hsame Hbuilders).
Qed.

(** C8. Two calls of [Probe] with the same receiver and name return equal
    candidate sequences - same length, same variants, same payloads, same
    order - when the two states of the compiler have the same registry
    enumerations, their type caches hold the same types for the self types
    of the blocks and for the registered items, and the trait resolver
    answers the same references for the trait paths of the blocks: the
    caches may differ on any other node, the resolver on any other path.
    The two calls also stop on the assertion together.  The types the
    candidates carry are equal as well when the builders of the trait
    items compute the same types in both calls. *)
Theorem C8_probe_deterministic (resolver1 resolver2 : TraitResolver)
    (builders1 builders2 : TraitItemReference.Builders)
    (tc1 tc2 : TypeCheckBase) (R : BaseType) (name : HIR.PathIdentSegment) :
  same_reads tc1 tc2 ->
  same_resolutions resolver1 resolver2 tc1 ->
  outcome_shape (@PathProbeType.Probe T resolver1 builders1 tc1 R name)
  = outcome_shape (@PathProbeType.Probe T resolver2 builders2 tc2 R name)
  /\ (same_builders builders1 builders2 ->
      @PathProbeType.Probe T resolver1 builders1 tc1 R name
      = @PathProbeType.Probe T resolver2 builders2 tc2 R name).
Proof.
  intros Hreads Hresolve.
  pose proof (same_reads_sym _ _ Hreads) as Hreads'.
  pose proof (same_resolutions_sym _ _ _ _ Hreads Hresolve) as Hresolve'.
  destruct (@PathProbeType.Probe T resolver1 builders1 tc1 R name)
    as [cs1|f1] eqn:Hfirst.
  - destruct (Probe_second_call resolver1 resolver2 builders1 builders2
                tc1 tc2 R name cs1 Hreads Hresolve Hfirst)
      as (cs2 & -> & Hshape & Hsame).
    simpl. split; [now rewrite Hshape|].
    intros Hbuilders. now rewrite (Hsame Hbuilders).
  - destruct (@PathProbeType.Probe T resolver2 builders2 tc2 R name)
      as [cs2|f2] eqn:Hsecond.
    + destruct (Probe_second_call resolver2 resolver1 builders2 builders1
                  tc2 tc1 R name cs2 Hreads' Hresolve' Hsecond)
        as (cs1 & Hfirst' & _). congruence.
    + apply (@Probe_abort T resolver1 builders1) in Hfirst.
      apply (@Probe_abort T resolver2 builders2) in Hsecond.
      subst. auto.
Qed.

End TwoCallsOfTheProbe.

(** * The further properties on the scenario *)

Section FurtherOnTheScenario.

#[local] Existing Instance Scenario.tyty.
#[local] Existing Instance Scenario.resolver.
#[local] Existing Instance Scenario.builders.
#[local] Existing Instance Scenario.printer.

Import Scenario.

Lemma lookup_trait_item_of_type_agrees_witness :
  TraitItemReference.get_trait_item_type
    (TraitReference.lookup_trait_item trait_T "qux")
  = TraitItemReference.FN
  /\ TraitReference.lookup_trait_item_of_type trait_T "qux"
       TraitItemReference.FN
     = TraitReference.lookup_trait_item trait_T "qux".
Proof.
  split; [reflexivity|].
  exact (lookup_trait_item_of_type_agrees trait_T "qux"
           TraitItemReference.FN eq_refl).
Defined.

Lemma lookup_results_are_items_witness :
  TraitItemReference.is_error
    (TraitReference.lookup_trait_item trait_T "qux") = false
  /\ TraitReference.lookup_trait_item trait_T "qux"
       ∈ TraitReference.item_refs trait_T
  /\ TraitItemReference.get_identifier
       (TraitReference.lookup_trait_item trait_T "qux") = "qux".
Proof.
  split; [reflexivity|].
  exact (proj1 (lookup_results_are_items trait_T "qux"
                  TraitItemReference.FN) eq_refl).
Defined.

Lemma as_string_tells_kind_and_identifier_witness :
  TraitItemReference.as_string baz = TraitItemReference.as_string baz_required
  /\ TraitItemReference.type baz = TraitItemReference.type baz_required
  /\ TraitItemReference.identifier baz
     = TraitItemReference.identifier baz_required.
Proof.
  split; [reflexivity|].
  exact (proj1 (as_string_tells_kind_and_identifier baz baz_required)
           eq_refl).
Defined.

Lemma accessors_on_error_reference_witness :
  TraitReference.is_error TraitReference.error = true
  /\ TraitReference.get_name TraitReference.error = Abort AssertFailed
  /\ TraitReference.get_locus TraitReference.error = Abort NullDeref.
Proof.
  split; [reflexivity|].
  exact (proj1 (accessors_on_error_reference TraitReference.error) eq_refl).
Defined.

Lemma as_string_never_stops_witness :
  TraitReference.is_error TraitReference.error = true
  /\ TraitReference.as_string TraitReference.error
     = Ok "<trait-ref-error-node>"
  /\ TraitReference.as_string trait_T
     = Ok "HIR Trait: T->T#50 [(FN baz ), (FN qux ), ]".
Proof.
  split; [reflexivity|]. split.
  - exact (proj1 (proj2 (as_string_never_stops TraitReference.error))
             eq_refl).
  - exact (proj2 (proj2 (as_string_never_stops trait_T)) _ eq_refl).
Defined.

Lemma scan_bounds_sound_witness :
  trait_T ∈ TypeBoundsProbe.Probe checked Foo
  /\ exists id impl path self_ty,
      (id, impl) ∈ hirImplBlockMappings (mappings checked)
      /\ HIR.get_trait_ref impl = Some path
      /\ lookup_type (context checked) (self_type_id impl) = Some self_ty
      /\ can_eq Foo self_ty false = true
      /\ Resolve path = trait_T.
Proof.
  assert (Hin : trait_T ∈ TypeBoundsProbe.Probe checked Foo)
    by (vm_compute; repeat constructor).
  split; [exact Hin|].
  exact (scan_bounds_sound checked Foo trait_T Hin).
Defined.

Lemma probe_returns_both_passes_in_order_witness :
  PathProbeType.Probe checked Foo (segment "baz") = Ok [baz_candidate]
  /\ [baz_candidate]
     = inherent_candidates checked Foo (segment "baz")
         ++ trait_default_candidates checked Foo (segment "baz").
Proof.
  assert (Hprobe : PathProbeType.Probe checked Foo (segment "baz")
                   = Ok [baz_candidate])
    by (vm_compute; reflexivity).
  split; [exact Hprobe|].
  exact (proj1 (probe_returns_both_passes_in_order checked Foo
                  (segment "baz") [baz_candidate] Hprobe)).
Defined.

Lemma probe_returns_iff_ready_witness :
  ~ (Forall (entry_ready unchecked Foo (segment "bar"))
       (hirImplItemMappings (mappings unchecked))
     /\ Forall (trait_ready (segment "bar"))
          (TypeBoundsProbe.Probe unchecked Foo))
  /\ PathProbeType.Probe unchecked Foo (segment "bar") = Abort AssertFailed.
Proof.
  assert (Hnot : ~ (Forall (entry_ready unchecked Foo (segment "bar"))
                      (hirImplItemMappings (mappings unchecked))
                    /\ Forall (trait_ready (segment "bar"))
                         (TypeBoundsProbe.Probe unchecked Foo))).
  { intros [Hentries _]. rewrite Forall_forall in Hentries.
    destruct (Hentries (11%N, fn_bar_of_Bar, impl_Bar)) as [[ty Hty] _].
    - repeat constructor.
    - vm_compute in Hty. discriminate. }
  split; [exact Hnot|].
  exact (proj2 (proj2 (probe_returns_iff_ready unchecked Foo
                         (segment "bar"))) Hnot).
Defined.

Lemma probe_candidates_are_consistent_witness :
  PathProbeType.Probe checked Foo (segment "baz") = Ok [baz_candidate]
  /\ Forall (fun c => well_tagged c /\ reads_constructed_member c = true
                      /\ carries_its_type checked c) [baz_candidate].
Proof.
  assert (Hprobe : PathProbeType.Probe checked Foo (segment "baz")
                   = Ok [baz_candidate])
    by (vm_compute; reflexivity).
  split; [exact Hprobe|].
  exact (probe_candidates_are_consistent checked Foo (segment "baz")
           [baz_candidate] Hprobe).
Defined.

Lemma probe_length_bound_witness :
  PathProbeType.Probe checked Foo (segment "bar") = Ok [bar_candidate]
  /\ length [bar_candidate]
     <= length (hirImplItemMappings (mappings checked))
        + length (hirImplBlockMappings (mappings checked)).
Proof.
  assert (Hprobe : PathProbeType.Probe checked Foo (segment "bar")
                   = Ok [bar_candidate])
    by (vm_compute; reflexivity).
  split; [exact Hprobe|].
  exact (proj2 (probe_length_bound checked Foo (segment "bar")
                  [bar_candidate] Hprobe)).
Defined.

Lemma probe_finds_nothing_witness :
  PathProbeType.Probe checked Foo (segment "nothing") = Ok [].
Proof.
  apply (probe_finds_nothing checked Foo (segment "nothing")).
  - repeat constructor; eexists; vm_compute; reflexivity.
  - repeat constructor.
Defined.

Lemma report_covers_every_candidate_witness :
  Forall (fun c => reads_constructed_member c = true)
    [bar_candidate; baz_candidate]
  /\ exists d,
      ReportMultipleCandidateError.Report [bar_candidate; baz_candidate]
        (segment "b") 7%N = Some d.
Proof.
  assert (Hall : Forall (fun c => reads_constructed_member c = true)
                   [bar_candidate; baz_candidate])
    by repeat constructor.
  split; [exact Hall|].
  exact (proj2 (proj1 (report_covers_every_candidate
                         [bar_candidate; baz_candidate] (segment "b") 7%N))
           Hall).
Defined.

Lemma probe_result_can_be_reported_witness :
  PathProbeType.Probe checked Foo (segment "baz") = Ok [baz_candidate]
  /\ exists d,
      ReportMultipleCandidateError.Report [baz_candidate] (segment "baz") 7%N
      = Some d
      /\ ReportMultipleCandidateError.anchor
           (ReportMultipleCandidateError.where_ d) = 7%N
      /\ ReportMultipleCandidateError.ranges
           (ReportMultipleCandidateError.where_ d)
         = map definition_locus [baz_candidate]
      /\ length (ReportMultipleCandidateError.ranges
                   (ReportMultipleCandidateError.where_ d))
         = length [baz_candidate].
Proof.
  assert (Hprobe : PathProbeType.Probe checked Foo (segment "baz")
                   = Ok [baz_candidate])
    by (vm_compute; reflexivity).
  split; [exact Hprobe|].
  exact (probe_result_can_be_reported checked Foo (segment "baz")
           [baz_candidate] 7%N Hprobe).
Defined.

End FurtherOnTheScenario.

(** * Two calls on the scenario *)

Section TwoCallsOnTheScenario.

Import Scenario.

Lemma C8_probe_deterministic_witness :
  same_reads checked checked_elsewhere
  /\ same_resolutions resolver resolver_again checked
  /\ lookup_type (context checked) 99%N
     <> lookup_type (context checked_elsewhere) 99%N
  /\ outcome_shape
       (@PathProbeType.Probe tyty resolver builders checked Foo
          (segment "baz"))
     = outcome_shape
         (@PathProbeType.Probe tyty resolver_again builders_again
            checked_elsewhere Foo (segment "baz"))
  /\ @PathProbeType.Probe tyty resolver builders checked Foo (segment "baz")
     = @PathProbeType.Probe tyty resolver_again builders checked_elsewhere
         Foo (segment "baz").
Proof.
  assert (Hreads : same_reads checked checked_elsewhere).
  { split; [reflexivity|]. split; [reflexivity|].
    split; repeat constructor; vm_compute; reflexivity. }
  assert (Hresolve : same_resolutions resolver resolver_again checked).
  { repeat constructor; intros path Hpath; simpl in Hpath;
      try discriminate; injection Hpath as <-; reflexivity. }
  split; [exact Hreads|]. split; [exact Hresolve|].
  split; [vm_compute; discriminate|]. split.
  - exact (proj1 (@C8_probe_deterministic tyty resolver resolver_again
                    builders builders_again checked checked_elsewhere Foo
                    (segment "baz") Hreads Hresolve)).
  - apply (proj2 (@C8_probe_deterministic tyty resolver resolver_again
                    builders builders checked checked_elsewhere Foo
                    (segment "baz") Hreads Hresolve)).
    intros r decl. auto.
Defined.

End TwoCallsOnTheScenario.
